(** * Steam achievement sync proxy: model of [server/steam-proxy.cjs]

    The service is one Express endpoint.  It validates the request, asks a
    challenge verifier (production only), resolves a profile reference to a
    SteamID64, fetches the player's achievements and translates them through
    the manifest sent by the client.

    The model follows the source function by function.  JavaScript values are
    a datatype of JSON trees with the coercions the source applies to them
    (truthiness, [String], [Number], property reads, [Map] key equality);
    [String] and [Number] are partial, since they throw a TypeError on an
    object that has a [toString] field of its own; outbound [fetch] calls go
    through an oracle and are recorded in a trace; exceptions are a result
    type.  Console output is not modelled. *)

From Stdlib Require Import ZArith List Bool Ascii String Lia.
From Stdlib Require Import Numbers.DecimalString.
From Stdlib Require Import Sorting.Permutation.
Import ListNotations.

Open Scope string_scope.
Open Scope Z_scope.

(* ================================================================== *)
(** ** The JavaScript values the service handles *)
(* ================================================================== *)

Module JS.

(** Strings are sequences of code units; the model keeps the code units
    below 256 (one [ascii] each).  Every pattern of the source is ASCII. *)

(** Numbers: [NaN], integers, and any other double, which is identified by
    its canonical rendering.  The service only tests numbers for being [1]
    or truthy and prints them. *)
Inductive number :=
| NaN
| Int (z : Z)
| NonInt (repr : string).

#[warnings="-register-all"] Inductive value :=
| VUndefined
| VNull
| VBool (b : bool)
| VNum (n : number)
| VStr (s : string)
| VArr (items : list value)
| VObj (fields : list (string * value)).

(** What the engine's own conversions yield where they depend on the
    rounding of doubles: the number of a string ([Number("...")]), and the
    digits printed for an integer beyond 2^53 (the shortest digits that read
    back as the same double, in exponent form from 10^21 on). *)
Class Runtime := {
  StringToNumber : string -> number;
  LargeIntegerToString : Z -> string
}.

Definition number_eqb (a b : number) : bool :=
  match a, b with
  | NaN, NaN => false                 (* NaN === NaN is false *)
  | Int x, Int y => Z.eqb x y
  | NonInt r, NonInt s => String.eqb r s
  | _, _ => false
  end.

Definition decimal (z : Z) : string := NilZero.string_of_int (Z.to_int z).

(** [String(n)]: an integer up to 2^53 in absolute value is printed by its
    decimal digits; a larger one as the engine prints it. *)
Definition NumberToString `{rt : Runtime} (n : number) : string :=
  match n with
  | NaN => "NaN"
  | Int z =>
      if Z.abs z <=? 9007199254740992 then decimal z
      else LargeIntegerToString z
  | NonInt r => r
  end.

(** ToBoolean. *)
Definition truthy (v : value) : bool :=
  match v with
  | VUndefined | VNull => false
  | VBool b => b
  | VNum NaN => false
  | VNum (Int z) => negb (Z.eqb z 0)
  | VNum (NonInt _) => true
  | VStr s => negb (String.eqb s "")
  | VArr _ | VObj _ => true
  end.

(** An object has a field of its own under the name [k], whatever the
    field holds. *)
Definition has_own (k : string) (fields : list (string * value)) : bool :=
  existsb (fun kv => String.eqb k (fst kv)) fields.

(** [String(v)], [None] when it throws a TypeError.  An object of a JSON
    document is printed by the inherited [toString] unless it has a
    [toString] field of its own: a field is never callable, the inherited
    [valueOf] returns the object itself, and the conversion to a primitive
    fails.  An array joins its elements with commas, [null] and [undefined]
    elements giving the empty string, and fails when an element fails. *)
Fixpoint ToString `{rt : Runtime} (v : value) : option string :=
  match v with
  | VUndefined => Some "undefined"
  | VNull => Some "null"
  | VBool true => Some "true"
  | VBool false => Some "false"
  | VNum n => Some (NumberToString n)
  | VStr s => Some s
  | VArr items =>
      (fix join (l : list value) : option string :=
         match l with
         | [] => Some ""
         | x :: r =>
             match (match x with
                    | VUndefined | VNull => Some ""
                    | _ => ToString x
                    end) with
             | None => None
             | Some e =>
                 match r with
                 | [] => Some e
                 | _ :: _ =>
                     match join r with
                     | Some rest => Some (e ++ "," ++ rest)
                     | None => None
                     end
                 end
             end
         end) items
  | VObj fields =>
      if has_own "toString" fields then None else Some "[object Object]"
  end.

(** [Number(v)], [None] when it throws a TypeError: an object goes through
    its conversion to a primitive, which ends with [toString] as for
    [String(v)]. *)
Definition ToNumber `{rt : Runtime} (v : value) : option number :=
  match v with
  | VUndefined => Some NaN
  | VNull => Some (Int 0)
  | VBool true => Some (Int 1)
  | VBool false => Some (Int 0)
  | VNum n => Some n
  | VStr s => Some (StringToNumber s)
  | VArr _ | VObj _ => option_map StringToNumber (ToString v)
  end.

Fixpoint assoc (k : string) (fields : list (string * value)) : value :=
  match fields with
  | [] => VUndefined
  | (k', v) :: rest => if String.eqb k k' then v else assoc k rest
  end.

(** [v?.k] for the data property names the source reads: an object yields
    the field, everything else [undefined]. *)
Definition get (v : value) (k : string) : value :=
  match v with
  | VObj fields => assoc k fields
  | _ => VUndefined
  end.

(** [a || b]. *)
Definition or_else (a b : value) : value := if truthy a then a else b.

(** Key equality of [Map] (SameValueZero) between values of JSON documents:
    primitives by value, objects and arrays by identity, and two nodes of
    parsed documents are never the same object. *)
Definition SameValueZero (a b : value) : bool :=
  match a, b with
  | VUndefined, VUndefined => true
  | VNull, VNull => true
  | VBool x, VBool y => Bool.eqb x y
  | VNum NaN, VNum NaN => true
  | VNum x, VNum y => number_eqb x y
  | VStr x, VStr y => String.eqb x y
  | _, _ => false
  end.

(** [Array.isArray]. *)
Definition isArray (v : value) : bool :=
  match v with VArr _ => true | _ => false end.

(** *** [Map] *)

Definition Map := list (value * value).

Fixpoint Map_get (m : Map) (k : value) : value :=
  match m with
  | [] => VUndefined
  | (k', v) :: rest => if SameValueZero k' k then v else Map_get rest k
  end.

(** [set] replaces the value of an existing key in place, or adds the
    entry at the end. *)
Fixpoint Map_set (m : Map) (k v : value) : Map :=
  match m with
  | [] => [(k, v)]
  | (k', v') :: rest =>
      if SameValueZero k' k then (k', v) :: rest
      else (k', v') :: Map_set rest k v
  end.

(** *** Strings *)

Definition code (c : ascii) : N := N_of_ascii c.

(** White space and line terminators removed by [trim]. *)
Definition is_ws (c : ascii) : bool :=
  let n := code c in
  ((9 <=? n) && (n <=? 13) || (n =? 32) || (n =? 160))%N.

Definition is_digit (c : ascii) : bool :=
  let n := code c in ((48 <=? n) && (n <=? 57))%N.

Fixpoint trimStart (s : string) : string :=
  match s with
  | String c r => if is_ws c then trimStart r else s
  | EmptyString => EmptyString
  end.

Fixpoint trimEnd (s : string) : string :=
  match s with
  | String c r =>
      let r' := trimEnd r in
      if is_ws c && String.eqb r' "" then "" else String c r'
  | EmptyString => EmptyString
  end.

Definition trim (s : string) : string := trimEnd (trimStart s).

Fixpoint all_chars (p : ascii -> bool) (s : string) : bool :=
  match s with
  | String c r => p c && all_chars p r
  | EmptyString => true
  end.

(** [s.includes(t)]. *)
Fixpoint includes (t s : string) : bool :=
  if String.prefix t s then true
  else match s with
       | String _ r => includes t r
       | EmptyString => false
       end.

(** *** Regular expressions of the source *)

(** Canonical form of a code unit under the [i] flag, for ASCII patterns:
    a non-ASCII code unit never matches an ASCII one. *)
Definition fold_case (c : ascii) : ascii :=
  let n := code c in
  if ((65 <=? n) && (n <=? 90))%N then ascii_of_N (n + 32) else c.

(** A literal at the head of [s], ignoring case; the rest of [s]. *)
Fixpoint literal_ci (pat s : string) : option string :=
  match pat with
  | EmptyString => Some s
  | String c pat' =>
      match s with
      | String d s' =>
          if Ascii.eqb (fold_case c) (fold_case d) then literal_ci pat' s'
          else None
      | EmptyString => None
      end
  end.

(** [[0-9]{n}] at the head of [s]. *)
Fixpoint digits (n : nat) (s : string) : option string :=
  match n with
  | O => Some ""
  | S n' =>
      match s with
      | String c r =>
          if is_digit c
          then option_map (String c) (digits n' r)
          else None
      | EmptyString => None
      end
  end.

(** The longest head of [s] made of characters satisfying [p]. *)
Fixpoint take_while (p : ascii -> bool) (s : string) : string :=
  match s with
  | String c r => if p c then String c (take_while p r) else ""
  | EmptyString => ""
  end.

(** An unanchored pattern is tried at each position from the left. *)
Fixpoint search {A} (at_head : string -> option A) (s : string) : option A :=
  match at_head s with
  | Some m => Some m
  | None =>
      match s with
      | String _ r => search at_head r
      | EmptyString => None
      end
  end.

(** [/^[0-9]{17}$/.test(s)]. *)
Definition re_steamid64 (s : string) : bool :=
  (Nat.eqb (String.length s) 17 && all_chars is_digit s)%bool.

Definition profiles_prefix : string := "steamcommunity.com/profiles/".
Definition id_prefix : string := "steamcommunity.com/id/".

(** The pattern [steamcommunity\.com\/profiles\/([0-9]{17})] under [i] at
    the head of [t]: group 1. *)
Definition profiles_at_head (t : string) : option string :=
  match literal_ci profiles_prefix t with
  | Some rest => digits 17 rest
  | None => None
  end.

(** [s.match(/steamcommunity\.com\/profiles\/([0-9]{17})/i)], group 1. *)
Definition re_profiles (s : string) : option string :=
  search profiles_at_head s.

Definition is_token_char (c : ascii) : bool :=
  negb (Ascii.eqb c "/" || Ascii.eqb c "?" || Ascii.eqb c "#")%char.

(** The pattern [steamcommunity\.com\/id\/([^\/\?\#]+)] under [i] at the
    head of [t]: group 1, the longest run of token characters. *)
Definition vanity_at_head (t : string) : option string :=
  match literal_ci id_prefix t with
  | Some rest =>
      let tok := take_while is_token_char rest in
      if String.eqb tok "" then None else Some tok
  | None => None
  end.

(** [s.match(/steamcommunity\.com\/id\/([^\/\?\#]+)/i)], group 1. *)
Definition re_vanity (s : string) : option string :=
  search vanity_at_head s.

(** *** URL encoding *)

Definition hex_digit (n : N) : ascii :=
  if (n <? 10)%N then ascii_of_N (48 + n) else ascii_of_N (55 + n).

Definition pct (byte : N) : string :=
  String "%" (String (hex_digit (byte / 16)) (String (hex_digit (byte mod 16)) "")).

Definition is_alnum (c : ascii) : bool :=
  let n := code c in
  (is_digit c || ((65 <=? n) && (n <=? 90)) || ((97 <=? n) && (n <=? 122)))%N.

(** UTF-8 bytes of a code unit below 256, percent-encoded. *)
Definition pct_utf8 (c : ascii) : string :=
  let n := code c in
  if (n <? 128)%N then pct n
  else pct (192 + n / 64) ++ pct (128 + n mod 64).

Definition uri_unreserved (c : ascii) : bool :=
  is_alnum c || existsb (Ascii.eqb c) (list_ascii_of_string "-_.!~*'()").

Fixpoint encodeURIComponent (s : string) : string :=
  match s with
  | String c r =>
      (if uri_unreserved c then String c "" else pct_utf8 c)
        ++ encodeURIComponent r
  | EmptyString => ""
  end.

Definition form_unreserved (c : ascii) : bool :=
  is_alnum c || existsb (Ascii.eqb c) (list_ascii_of_string "*-._").

(** The serializer of [URLSearchParams]. *)
Fixpoint formEncode (s : string) : string :=
  match s with
  | String c r =>
      (if form_unreserved c then String c ""
       else if Ascii.eqb c " " then "+"
       else pct_utf8 c) ++ formEncode r
  | EmptyString => ""
  end.

End JS.

Import JS.

(* ================================================================== *)
(** ** Configuration and start-up (lines 8-26) *)
(* ================================================================== *)

(** The variables of the process environment the service reads. *)
Record environment := {
  env_STEAM_API_KEY : option string;
  env_TURNSTILE_SECRET_KEY : option string;
  env_NODE_ENV : option string
}.

(** The module-level constants. *)
Record config := {
  STEAM_API_KEY : option string;
  TURNSTILE_SECRET_KEY : option string;
  IS_PROD : bool
}.

Definition APPID : Z := 1609230.

(** An environment variable as a value: unset is [undefined]. *)
Definition env_value (o : option string) : value :=
  match o with
  | Some s => VStr s
  | None => VUndefined
  end.

(** An environment variable put into a string: unset prints as
    [undefined]. *)
Definition env_string (o : option string) : string :=
  match o with
  | Some s => s
  | None => "undefined"
  end.

Definition load (e : environment) : config :=
  {| STEAM_API_KEY := env_STEAM_API_KEY e;
     TURNSTILE_SECRET_KEY := env_TURNSTILE_SECRET_KEY e;
     IS_PROD := match env_NODE_ENV e with
                | Some s => String.eqb s "production"
                | None => false
                end |}.

(** The process either exits during start-up or listens with its
    configuration. *)
Inductive process :=
| Exited (exit_code : Z)
| Listening (cfg : config).

(** Lines 23-26: the only start-up check is on [STEAM_API_KEY]. *)
Definition start (e : environment) : process :=
  let cfg := load e in
  if negb (truthy (env_value (STEAM_API_KEY cfg))) then Exited 1
  else Listening cfg.

(* ================================================================== *)
(** ** Outbound calls and exceptions *)
(* ================================================================== *)

Inductive request :=
| GET (url : string)
| POST_form (url : string) (body : string).

(** A response: its status and what [JSON.parse] makes of its body text,
    [None] when parsing throws. *)
Record response := {
  status : Z;
  parsed : option value
}.

(** [res.ok]. *)
Definition ok (r : response) : bool :=
  (200 <=? status r) && (status r <=? 299).

(** An [Error] object; only its message is ever read. *)
Inductive exn := Error (message : string).

Definition message (e : exn) : string :=
  match e with Error m => m end.

(** [fetch] either rejects or resolves to a response. *)
Inductive outcome :=
| Rejected (e : exn)
| Resolved (r : response).

Definition network := request -> outcome.

Inductive result (A : Type) :=
| Return (a : A)
| Throw (e : exn).
Arguments Return {A} a.
Arguments Throw {A} e.

(** An async function: it extends the trace of the outbound calls made so
    far and returns or throws. *)
Definition M (A : Type) : Type := list request -> result A * list request.

Definition ret {A} (a : A) : M A := fun tr => (Return a, tr).

Definition throw {A} (e : exn) : M A := fun tr => (Throw e, tr).

Definition bind {A B} (m : M A) (k : A -> M B) : M B :=
  fun tr =>
    match m tr with
    | (Return a, tr') => k a tr'
    | (Throw e, tr') => (Throw e, tr')
    end.

(** [try { m } catch (e) { h e }]. *)
Definition try_catch {A} (m : M A) (h : exn -> M A) : M A :=
  fun tr =>
    match m tr with
    | (Return a, tr') => (Return a, tr')
    | (Throw e, tr') => h e tr'
    end.

Definition fetch (net : network) (req : request) : M response :=
  fun tr =>
    match net req with
    | Rejected e => (Throw e, (tr ++ [req])%list)
    | Resolved r => (Return r, (tr ++ [req])%list)
    end.

Notation "x <- m ;; k" := (bind m (fun x => k))
  (at level 61, m at next level, right associativity).

(** Run from an empty trace. *)
Definition run {A} (m : M A) : result A * list request := m [].

(** [JSON.parse] in [try { data = JSON.parse(rawText) } catch {}] after
    [let data = null], and [resp.json().catch(() => null)]. *)
Definition data_of (r : response) : value :=
  match parsed r with
  | Some v => v
  | None => VNull
  end.

(** The TypeError of a conversion that fails. *)
Definition type_error : exn :=
  Error "Cannot convert object to primitive value".

(** [String(v)] as a step that returns or throws. *)
Definition String_of `{rt : Runtime} (v : value) : result string :=
  match ToString v with
  | Some s => Return s
  | None => Throw type_error
  end.

(** A step without outbound call inside an async function. *)
Definition lift {A} (r : result A) : M A := fun tr => (r, tr).

(* ================================================================== *)
(** ** The service (lines 31-175) *)
(* ================================================================== *)

Section Service.

Context `{rt : Runtime}.
Variable cfg : config.
Variable net : network.

Definition cleanProfileUrl (u : value) : result string :=
  match String_of (or_else u (VStr "")) with
  | Return s => Return (trim s)
  | Throw e => Throw e
  end.

Definition isSteamID64 (s : value) : result bool :=
  match String_of s with
  | Return t => Return (re_steamid64 t)
  | Throw e => Throw e
  end.

Definition obj_true_skipped : value :=
  VObj [("success", VBool true); ("skipped", VBool true)].

Definition turnstile_url : string :=
  "https://challenges.cloudflare.com/turnstile/v0/siteverify".

(** [form.toString()] of lines 48-51. *)
Definition turnstile_form (secret token : string) (remoteip : option string)
  : string :=
  "secret=" ++ formEncode secret ++ "&response=" ++ formEncode token ++
  (if truthy (env_value remoteip)
   then "&remoteip=" ++ formEncode (env_string remoteip)
   else "").

Definition verifyTurnstileOrSkip (token : string) (remoteip : option string)
  : M value :=
  if negb (IS_PROD cfg) then ret obj_true_skipped
  else if negb (truthy (env_value (TURNSTILE_SECRET_KEY cfg)))
  then throw (Error "Missing TURNSTILE_SECRET_KEY in production")
  else if negb (truthy (VStr token))
  then ret (VObj [("success", VBool false);
                  ("error", VStr "Missing turnstileToken")])
  else
    resp <- fetch net
              (POST_form turnstile_url
                 (turnstile_form (env_string (TURNSTILE_SECRET_KEY cfg))
                                 token remoteip)) ;;
    let data := data_of resp in
    if negb (truthy (get data "success"))
    then ret (VObj [("success", VBool false);
                    ("error", VStr "Turnstile failed");
                    ("details", data)])
    else ret (VObj [("success", VBool true)]).

Definition vanity_url (vanity : string) : string :=
  "https://api.steampowered.com/ISteamUser/ResolveVanityURL/v0001/" ++
  "?key=" ++ encodeURIComponent (env_string (STEAM_API_KEY cfg)) ++
  "&vanityurl=" ++ encodeURIComponent vanity.

(** [success !== 1]. *)
Definition is_not_one (v : value) : bool :=
  match v with
  | VNum n => negb (number_eqb n (Int 1))
  | _ => true
  end.

Definition resolveVanity (vanity : string) : M value :=
  res <- fetch net (GET (vanity_url vanity)) ;;
  let data := data_of res in
  if negb (ok res)
  then throw (Error ("ResolveVanityURL failed (HTTP " ++
                     NumberToString (Int (status res)) ++ ")"))
  else
    let steamid := get (get data "response") "steamid" in
    let success := get (get data "response") "success" in
    if is_not_one success || negb (truthy steamid)
    then throw (Error ("Could not resolve that Steam profile. (vanity=" ++
                       vanity ++ ")"))
    else ret steamid.

Definition resolveSteamId64 (profile : value) : M value :=
  p <- lift (cleanProfileUrl profile) ;;
  is_id <- lift (isSteamID64 (VStr p)) ;;
  if is_id then ret (VStr p)
  else match re_profiles p with
       | Some id => ret (VStr id)
       | None =>
           match re_vanity p with
           | Some tok => resolveVanity tok
           | None => resolveVanity p
           end
       end.

(** The URL of lines 105-109 for an id already put into a string. *)
Definition stats_url (steamid : string) : string :=
  "https://api.steampowered.com/ISteamUserStats/GetPlayerAchievements/v1/" ++
  "?key=" ++ encodeURIComponent (env_string (STEAM_API_KEY cfg)) ++
  "&steamid=" ++ encodeURIComponent steamid ++
  "&appid=" ++ encodeURIComponent (decimal APPID).

Definition array_items (v : value) : list value :=
  match v with
  | VArr items => items
  | _ => []
  end.

(** [encodeURIComponent(steamid64)] converts the id to a string while the
    URL is built, before the call; [new Error(ps.error)] converts the error
    field to the message. *)
Definition getPlayerAchievements (steamid64 : value) : M (list value) :=
  steamid <- lift (String_of steamid64) ;;
  res <- fetch net (GET (stats_url steamid)) ;;
  let data := data_of res in
  if negb (ok res)
  then throw (Error ("Steam API error (HTTP " ++
                     NumberToString (Int (status res)) ++ ")"))
  else
    let ps := get data "playerstats" in
    if negb (truthy ps)
    then throw (Error "Unexpected Steam response (missing playerstats).")
    else if truthy (get ps "error")
    then (msg <- lift (String_of (get ps "error")) ;; throw (Error msg))
    else ret (if isArray (get ps "achievements")
              then array_items (get ps "achievements")
              else []).

(** Lines 139-142. *)
Definition build_apiToKey (client : list value) : Map :=
  fold_left
    (fun apiToKey a =>
       if truthy (get a "apiname") && truthy (get a "key")
       then Map_set apiToKey (get a "apiname") (get a "key")
       else apiToKey)
    client [].

(** [Number(a?.achieved) !== 1] negated; [None] when [Number] throws. *)
Definition achieved (a : value) : option bool :=
  option_map (fun n => number_eqb n (Int 1)) (ToNumber (get a "achieved")).

(** Lines 144-149: the loop over the records still to visit, with the
    array [unlocked] as filled so far; it stops at the first record whose
    flag cannot be converted. *)
Fixpoint collect_unlocked (apiToKey : Map) (list_ unlocked : list value)
  : result (list value) :=
  match list_ with
  | [] => Return unlocked
  | a :: rest =>
      match achieved a with
      | None => Throw type_error
      | Some false => collect_unlocked apiToKey rest unlocked
      | Some true =>
          let key := Map_get apiToKey (get a "apiname") in
          if truthy key
          then collect_unlocked apiToKey rest (unlocked ++ [key])%list
          else collect_unlocked apiToKey rest unlocked
      end
  end.

Definition sync_result (steamid64 : value) (unlocked : list value) : value :=
  VObj [("steamid64", steamid64);
        ("unlocked", VArr unlocked);
        ("count", VNum (Int (Z.of_nat (List.length unlocked))))].

(** [client] is the array the endpoint passes (line 159), so that
    [client || []] is [client]. *)
Definition handleSync (profile : value) (client : list value) : M value :=
  steamid64 <- resolveSteamId64 profile ;;
  list_ <- getPlayerAchievements steamid64 ;;
  let apiToKey := build_apiToKey client in
  unlocked <- lift (collect_unlocked apiToKey list_ []) ;;
  ret (sync_result steamid64 unlocked).

(** An incoming request after the JSON body parser: the body
    ([undefined] without one) and the caller's address. *)
Record http_request := {
  req_body : value;
  req_ip : option string
}.

Record http_response := {
  res_status : Z;
  res_json : value
}.

Definition error_body (msg : value) : value := VObj [("error", msg)].

Definition post_steam_sync (req : http_request) : M http_response :=
  try_catch
    (raw_profile <-
       lift (String_of (or_else (get (req_body req) "profile") (VStr ""))) ;;
     let profile := trim raw_profile in
     if negb (truthy (VStr profile))
     then ret {| res_status := 400;
                 res_json := error_body (VStr "Missing profile") |}
     else
       let client :=
         if isArray (get (req_body req) "client")
         then array_items (get (req_body req) "client") else [] in
       raw_token <-
         lift (String_of (or_else (get (req_body req) "turnstileToken")
                                  (VStr ""))) ;;
       let turnstileToken := trim raw_token in
       ts <- verifyTurnstileOrSkip turnstileToken (req_ip req) ;;
       if negb (truthy (get ts "success"))
       then ret {| res_status := 400;
                   res_json := VObj [("error", get ts "error");
                                     ("details", get ts "details")] |}
       else
         out <- handleSync (VStr profile) client ;;
         ret {| res_status := 200; res_json := out |})
    (fun e =>
       ret {| res_status := 500;
              res_json := error_body
                            (or_else (VStr (message e))
                                     (VStr "Server error")) |}).

Definition get_steam_sync (req : http_request) : M http_response :=
  ret {| res_status := 400; res_json := error_body (VStr "Missing profile") |}.

(** The two routes of [/api/steam-sync]. *)
Inductive method := HTTP_GET | HTTP_POST.

Definition app (m : method) (req : http_request) : M http_response :=
  match m with
  | HTTP_POST => post_steam_sync req
  | HTTP_GET => get_steam_sync req
  end.

End Service.

(** A request sent to the process started in environment [e]: no answer
    when the process exited at start-up. *)
Definition serve `{rt : Runtime} (e : environment) (net : network)
  (m : method) (req : http_request)
  : option (result http_response * list request) :=
  match start e with
  | Exited _ => None
  | Listening cfg => Some (run (app cfg net m req))
  end.

(* ================================================================== *)
(** ** Concrete data for the examples *)
(* ================================================================== *)

Fixpoint decimal_value (s : string) (acc : Z) : option Z :=
  match s with
  | String c r =>
      if is_digit c
      then decimal_value r (10 * acc + Z.of_N (code c - 48))
      else None
  | EmptyString => Some acc
  end.

(** [Number] on the decimal integer literals; the examples use no other
    numeric string. *)
Definition integer_literal (s : string) : number :=
  match trim s with
  | EmptyString => Int 0
  | String c r =>
      if is_digit c
      then match decimal_value (String c r) 0 with
           | Some z => Int z
           | None => NaN
           end
      else NaN
  end.

(** The runtime of the closed examples.  No example prints an integer
    beyond 2^53; [decimal] only fills the field. *)
Definition example_runtime : Runtime :=
  {| StringToNumber := integer_literal;
     LargeIntegerToString := decimal |}.

Definition achievement (apiname : string) (flag : Z) : value :=
  VObj [("apiname", VStr apiname); ("achieved", VNum (Int flag))].

Definition entry (apiname key : string) : value :=
  VObj [("apiname", VStr apiname); ("key", VStr key)].

Definition stats_body (achievements : list value) : value :=
  VObj [("playerstats", VObj [("achievements", VArr achievements)])].

Definition json (st : Z) (v : value) : outcome :=
  Resolved {| status := st; parsed := Some v |}.

Definition example_key : string := "0123456789ABCDEF0123456789ABCDEF".

Definition dev_cfg : config :=
  {| STEAM_API_KEY := Some example_key;
     TURNSTILE_SECRET_KEY := None;
     IS_PROD := false |}.

Definition prod_cfg : config :=
  {| STEAM_API_KEY := Some example_key;
     TURNSTILE_SECRET_KEY := Some "turnstile-secret";
     IS_PROD := true |}.

Definition prod_cfg_no_secret : config :=
  {| STEAM_API_KEY := Some example_key;
     TURNSTILE_SECRET_KEY := None;
     IS_PROD := true |}.

Definition example_id : string := "76561198000000000".

(** A network in which every call answers 200 with the same document. *)
Definition always (v : value) : network := fun _ => json 200 v.

(* ================================================================== *)
(** ** The unlocked list, as the specification words it *)
(* ================================================================== *)

Definition apiname_of (a : value) : value := get a "apiname".
Definition key_of (a : value) : value := get a "key".

(** An entry enters the lookup when both its api-name and its key are
    truthy (line 141). *)
Definition usable (e : value) : bool :=
  truthy (apiname_of e) && truthy (key_of e).

(** The last entry of [entries] declared for [name]. *)
Definition last_entry_for (entries : list value) (name : value)
  : option value :=
  find (fun e => SameValueZero (apiname_of e) name) (rev entries).

(** The lookup built from the usable entries, the last one winning. *)
Definition lookup (manifest : list value) (name : value) : option value :=
  option_map key_of (last_entry_for (filter usable manifest) name).

(** The flag of a record converts to a number, and to the number 1. *)
Definition flag_converts `{rt : Runtime} (a : value) : bool :=
  match achieved a with
  | Some _ => true
  | None => false
  end.

Definition is_achieved `{rt : Runtime} (a : value) : bool :=
  match achieved a with
  | Some b => b
  | None => false
  end.

(** The achievements met in order, each achieved one present in the lookup
    contributing its key. *)
Definition unlocked_keys `{rt : Runtime} (manifest achievements : list value)
  : list value :=
  flat_map
    (fun a =>
       if is_achieved a
       then match lookup manifest (apiname_of a) with
            | Some k => [k]
            | None => []
            end
       else [])
    achievements.

(** The same with the lookup built from every entry of the manifest, as
    the specification has it. *)
Definition lookup_all_entries (manifest : list value) (name : value)
  : option value :=
  option_map key_of (last_entry_for manifest name).

Definition unlocked_keys_all_entries `{rt : Runtime}
  (manifest achievements : list value) : list value :=
  flat_map
    (fun a =>
       if is_achieved a
       then match lookup_all_entries manifest (apiname_of a) with
            | Some k => [k]
            | None => []
            end
       else [])
    achievements.

(** What [apiToKey.get(name)] is expected to return. *)
Definition lookup_value (manifest : list value) (name : value) : value :=
  match lookup manifest name with
  | Some k => k
  | None => VUndefined
  end.

(* ================================================================== *)
(** ** The fields of a request, and what counts as present *)
(* ================================================================== *)

(** A configuration value that is set ([if (X)]): not unset, not empty. *)
Definition configured (o : option string) : bool := truthy (env_value o).

(** [String(v || "").trim()], which returns or throws. *)
Definition trimmed `{rt : Runtime} (v : value) : result string :=
  match String_of (or_else v (VStr "")) with
  | Return s => Return (trim s)
  | Throw e => Throw e
  end.

(** The profile, the manifest and the token as the endpoint reads them
    (lines 156-160). *)
Definition profile_of `{rt : Runtime} (req : http_request) : result string :=
  trimmed (get (req_body req) "profile").

Definition client_of (req : http_request) : list value :=
  if isArray (get (req_body req) "client")
  then array_items (get (req_body req) "client") else [].

Definition token_of `{rt : Runtime} (req : http_request) : result string :=
  trimmed (get (req_body req) "turnstileToken").

(** The call to the challenge service for a token. *)
Definition turnstile_call (cfg : config) (token : string)
  (remoteip : option string) : request :=
  POST_form turnstile_url
    (turnstile_form (env_string (TURNSTILE_SECRET_KEY cfg)) token remoteip).

(** The body of a 500 answer for an error (line 169). *)
Definition server_error (e : exn) : http_response :=
  {| res_status := 500;
     res_json := error_body (or_else (VStr (message e))
                                     (VStr "Server error")) |}.

Definition missing_profile : http_response :=
  {| res_status := 400; res_json := error_body (VStr "Missing profile") |}.


Definition absent (v : value) : Prop := truthy v = false.

(* ================================================================== *)
(** ** The forms of a profile reference *)
(* ================================================================== *)

Fixpoint fold_string (s : string) : string :=
  match s with
  | String c r => String (fold_case c) (fold_string r)
  | EmptyString => EmptyString
  end.

(** Equal up to the case of the ASCII letters. *)
Definition same_ci (a b : string) : Prop := fold_string a = fold_string b.

Definition steamid_digits (d : string) : Prop :=
  String.length d = 17%nat /\ all_chars is_digit d = true.

(** The form as the specification words it, [.../profiles/<17 digits>]:
    [p] contains [/profiles/] followed by the 17 digits [d], after any
    text. *)
Definition stated_profiles_form (p d : string) : Prop :=
  exists pre m rest,
    p = pre ++ m ++ d ++ rest /\ same_ci m "/profiles/" /\
    steamid_digits d.

(** The form as the specification words it, [.../id/<token>]: [p]
    contains [/id/] followed by the token [tok], after any text. *)
Definition stated_vanity_form (p tok : string) : Prop :=
  exists pre m rest,
    p = pre ++ m ++ tok ++ rest /\ same_ci m "/id/" /\
    tok <> "" /\ all_chars is_token_char tok = true.

(** The form the pattern of line 95 looks for: [p] contains, after [pre],
    [steamcommunity.com/profiles/] and the 17 digits [d]. *)
Definition community_profiles_form (p pre d : string) : Prop :=
  exists m rest,
    p = pre ++ m ++ d ++ rest /\ same_ci m profiles_prefix /\
    steamid_digits d.

(** The form the pattern of line 98 looks for: [p] contains, after [pre],
    [steamcommunity.com/id/] and the token [tok], which has no [/], [?]
    or [#]. *)
Definition community_vanity_form (p pre tok : string) : Prop :=
  exists m rest,
    p = pre ++ m ++ tok ++ rest /\ same_ci m id_prefix /\
    tok <> "" /\ all_chars is_token_char tok = true.

(** The token stops at the end of the input or at a separator. *)
Definition token_ends (rest : string) : Prop :=
  match rest with
  | String c _ => is_token_char c = false
  | EmptyString => True
  end.

(** [d] is the identifier of the leftmost [community_profiles_form] of
    [p]. *)
Definition leftmost_profiles (p d : string) : Prop :=
  exists pre,
    community_profiles_form p pre d /\
    forall pre' d', community_profiles_form p pre' d' ->
                    (String.length pre <= String.length pre')%nat.

(** [tok] is the whole token of the leftmost [community_vanity_form] of
    [p]. *)
Definition leftmost_vanity (p tok : string) : Prop :=
  exists pre m rest,
    p = pre ++ m ++ tok ++ rest /\ same_ci m id_prefix /\
    tok <> "" /\ all_chars is_token_char tok = true /\ token_ends rest /\
    forall pre' tok', community_vanity_form p pre' tok' ->
                      (String.length pre <= String.length pre')%nat.

(** An entry whose api-name or key is absent or the empty string. *)
Definition blank (v : value) : Prop := v = VUndefined \/ v = VStr "".

Definition incomplete (e : value) : Prop :=
  blank (apiname_of e) \/ blank (key_of e).

(* ================================================================== *)
(** ** More data for the examples *)
(* ================================================================== *)

Definition example_post : http_request :=
  {| req_body := VObj [("profile", VStr example_id);
                       ("client", VArr [entry "A" "k1"]);
                       ("turnstileToken", VStr "tok")];
     req_ip := Some "203.0.113.7" |}.

(** A network whose calls all fail. *)
Definition unreachable : network := fun _ => Rejected (Error "fetch failed").

Definition url_of (r : request) : string :=
  match r with
  | GET url => url
  | POST_form url _ => url
  end.

(** A network whose calls all fail with an error that quotes the URL of
    the call, as the errors of some [fetch] implementations do. *)
Definition quoting : network :=
  fun r => Rejected (Error ("request to " ++ url_of r ++ " failed")).

(** A network whose answers are all 200 with a body that is not JSON. *)
Definition garbled : network :=
  fun _ => Resolved {| status := 200; parsed := None |}.

Definition prod_env_no_secret : environment :=
  {| env_STEAM_API_KEY := Some example_key;
     env_TURNSTILE_SECRET_KEY := None;
     env_NODE_ENV := Some "production" |}.

(* ================================================================== *)
(** ** The outcome of the achievement fetch *)
(* ================================================================== *)




(* ================================================================== *)
(** ** The shape of a credential *)
(* ================================================================== *)

Definition is_hex (c : ascii) : bool :=
  let n := code c in
  (is_digit c || ((65 <=? n) && (n <=? 70)) || ((97 <=? n) && (n <=? 102)))%N.

(** A credential made of hexadecimal digits, four at least (the keys of the
    Steam Web API have 32). *)
Definition hex_key (key : string) : Prop :=
  all_chars is_hex key = true /\ (4 <= String.length key)%nat.

(** The longest run of characters satisfying [p] in [s]. *)
Fixpoint max_run (p : ascii -> bool) (s : string) : nat :=
  match s with
  | String _ r => Nat.max (String.length (take_while p s)) (max_run p r)
  | EmptyString => O
  end.

(* ================================================================== *)
(** ** Redaction of the logged URLs (lines 39-41) *)
(* ================================================================== *)

Fixpoint drop (n : nat) (s : string) : string :=
  match n, s with
  | O, _ => s
  | S n', String _ r => drop n' r
  | S _, EmptyString => EmptyString
  end.

(** [s.replace(pat, rep)] for a string pattern and a replacement without
    [$]: the first occurrence only. *)
Fixpoint replace_first (pat rep s : string) : string :=
  if String.prefix pat s then rep ++ drop (String.length pat) s
  else match s with
       | String c r => String c (replace_first pat rep r)
       | EmptyString => EmptyString
       end.

Definition redactKey (cfg : config) (url : string) : string :=
  if truthy (env_value (STEAM_API_KEY cfg))
  then replace_first (env_string (STEAM_API_KEY cfg)) "REDACTED" url
  else url.

(* ================================================================== *)
(** ** Counting and reading back characters *)
(* ================================================================== *)

Fixpoint count_char (c : ascii) (s : string) : nat :=
  match s with
  | String d r => ((if Ascii.eqb c d then 1 else 0) + count_char c r)%nat
  | EmptyString => O
  end.

Definition hex_value (c : ascii) : option N :=
  let n := code c in
  if is_digit c then Some (n - 48)%N
  else if ((65 <=? n) && (n <=? 70))%N then Some (n - 55)%N
  else None.

(** A percent escape at the head of [s]: its byte and what follows. *)
Definition read_pct (s : string) : option (N * string) :=
  match s with
  | String p (String h (String l r)) =>
      if Ascii.eqb p "%"
      then match hex_value h, hex_value l with
           | Some a, Some b => Some (16 * a + b, r)%N
           | _, _ => None
           end
      else None
  | _ => None
  end.

(** The code unit at the head of a string made by [encodeURIComponent],
    and the rest of the string. *)
Definition uri_head (s : string) : option (ascii * string) :=
  match s with
  | EmptyString => None
  | String c r =>
      if Ascii.eqb c "%"
      then match read_pct s with
           | Some (b, r1) =>
               if (b <? 128)%N then Some (ascii_of_N b, r1)
               else match read_pct r1 with
                    | Some (b2, r2) =>
                        Some (ascii_of_N ((b - 192) * 64 + (b2 - 128)), r2)
                    | None => None
                    end
           | None => None
           end
      else Some (c, r)
  end.

(** The characters [encodeURIComponent] lets through or produces. *)
Definition uri_safe (c : ascii) : bool := uri_unreserved c || Ascii.eqb c "%".

(** The characters the form serializer lets through or produces. *)
Definition form_safe (c : ascii) : bool :=
  form_unreserved c || Ascii.eqb c "%" || Ascii.eqb c "+".

(* ================================================================== *)
(** ** Lemmas on [Map] and the two loops of [handleSync] *)
(* ================================================================== *)

Lemma SameValueZero_eq a b : SameValueZero a b = true -> a = b.
Proof.
  destruct a as [| |x|[|x|x]|x|x|x], b as [| |y|[|y|y]|y|y|y]; simpl;
    try discriminate; try reflexivity; intros E.
  - apply Bool.eqb_prop in E. now subst.
  - apply Z.eqb_eq in E. now subst.
  - apply String.eqb_eq in E. now subst.
  - apply String.eqb_eq in E. now subst.
Qed.

Lemma SameValueZero_trans_l k0 k k' :
  SameValueZero k0 k = true -> SameValueZero k0 k' = SameValueZero k k'.
Proof. intros E. apply SameValueZero_eq in E. now subst. Qed.

Lemma SameValueZero_join k0 k k' :
  SameValueZero k0 k' = true -> SameValueZero k k' = true ->
  SameValueZero k0 k = true.
Proof.
  intros E1 E2. pose proof (SameValueZero_eq _ _ E1).
  pose proof (SameValueZero_eq _ _ E2). subst. exact E1.
Qed.

Lemma Map_get_set m k v k' :
  Map_get (Map_set m k v) k' =
  if SameValueZero k k' then v else Map_get m k'.
Proof.
  induction m as [|[k0 v0] rest IH]; simpl.
  - reflexivity.
  - destruct (SameValueZero k0 k) eqn:E0; simpl.
    + rewrite (SameValueZero_trans_l _ _ k' E0).
      now destruct (SameValueZero k k').
    + rewrite IH.
      destruct (SameValueZero k0 k') eqn:E1;
        destruct (SameValueZero k k') eqn:E2; try reflexivity.
      rewrite (SameValueZero_join _ _ _ E1 E2) in E0. discriminate.
Qed.

Section Loops.

Context `{rt : Runtime}.

Lemma build_apiToKey_snoc client a :
  build_apiToKey (client ++ [a]) =
  if usable a
  then Map_set (build_apiToKey client) (apiname_of a) (key_of a)
  else build_apiToKey client.
Proof. unfold build_apiToKey. now rewrite fold_left_app. Qed.

Lemma lookup_snoc client a name :
  lookup (client ++ [a]) name =
  if usable a && SameValueZero (apiname_of a) name
  then Some (key_of a)
  else lookup client name.
Proof.
  unfold lookup, last_entry_for.
  rewrite filter_app. simpl.
  destruct (usable a); simpl.
  - rewrite rev_app_distr. simpl.
    now destruct (SameValueZero (apiname_of a) name).
  - now rewrite app_nil_r.
Qed.

Lemma lookup_truthy client name k :
  lookup client name = Some k -> truthy k = true.
Proof.
  unfold lookup, last_entry_for. intros E.
  destruct (find _ _) as [e|] eqn:F; [|discriminate].
  apply find_some in F. destruct F as [In _].
  apply in_rev, filter_In in In. destruct In as [_ U].
  injection E as <-. unfold usable in U.
  now apply andb_true_iff in U.
Qed.

(** The map built by the first loop answers as the lookup does. *)
Lemma Map_get_build client name :
  Map_get (build_apiToKey client) name = lookup_value client name.
Proof.
  induction client as [|a client IH] using rev_ind.
  - reflexivity.
  - unfold lookup_value in *.
    rewrite build_apiToKey_snoc, lookup_snoc.
    destruct (usable a); simpl.
    + rewrite Map_get_set.
      now destruct (SameValueZero (apiname_of a) name).
    + exact IH.
Qed.

(** The second loop, for any map: it throws when a flag cannot be
    converted, and otherwise appends, record by record, the key of each
    achieved record that has a truthy one. *)
Lemma collect_unlocked_flat (apiToKey : Map) : forall l u,
  collect_unlocked apiToKey l u
  = if forallb flag_converts l
    then Return
           (u ++ flat_map
                   (fun a =>
                      if is_achieved a
                         && truthy (Map_get apiToKey (get a "apiname"))
                      then [Map_get apiToKey (get a "apiname")] else [])
                   l)%list
    else Throw type_error.
Proof.
  induction l as [|a l IH]; intros u; simpl.
  - now rewrite app_nil_r.
  - unfold flag_converts at 1, is_achieved at 1.
    destruct (achieved a) as [[|]|]; simpl; [| |reflexivity].
    + destruct (truthy (Map_get apiToKey (get a "apiname"))); rewrite IH;
        destruct (forallb flag_converts l); try reflexivity.
      now rewrite <- app_assoc.
    + rewrite IH. now destruct (forallb flag_converts l).
Qed.

(** The second loop collects what the specification describes. *)
Lemma collect_unlocked_spec client achievements :
  collect_unlocked (build_apiToKey client) achievements []
  = if forallb flag_converts achievements
    then Return (unlocked_keys client achievements)
    else Throw type_error.
Proof.
  rewrite collect_unlocked_flat.
  destruct (forallb flag_converts achievements); [|reflexivity].
  simpl. f_equal. unfold unlocked_keys. apply flat_map_ext. intros a.
  rewrite Map_get_build. unfold lookup_value, apiname_of.
  destruct (is_achieved a); simpl; [|reflexivity].
  destruct (lookup client (get a "apiname")) as [k|] eqn:L.
  - now rewrite (lookup_truthy _ _ _ L).
  - reflexivity.
Qed.

End Loops.

(* ================================================================== *)
(** ** [handleSync] *)
(* ================================================================== *)

Section HandleSync.

Context `{rt : Runtime}.
Variable cfg : config.
Variable net : network.

(** [handleSync] runs the resolver, then the fetcher, then the two loops,
    and returns the summary; a failure of any of them is passed on. *)
Lemma handleSync_run profile client tr :
  handleSync cfg net profile client tr =
  match resolveSteamId64 cfg net profile tr with
  | (Throw e, tr1) => (Throw e, tr1)
  | (Return steamid64, tr1) =>
      match getPlayerAchievements cfg net steamid64 tr1 with
      | (Throw e, tr2) => (Throw e, tr2)
      | (Return achievements, tr2) =>
          if forallb flag_converts achievements
          then (Return (sync_result steamid64
                          (unlocked_keys client achievements)), tr2)
          else (Throw type_error, tr2)
      end
  end.
Proof.
  unfold handleSync, bind.
  destruct (resolveSteamId64 cfg net profile tr) as [[id|e] tr1];
    [|reflexivity].
  destruct (getPlayerAchievements cfg net id tr1) as [[l|e] tr2];
    [|reflexivity].
  unfold lift, ret. rewrite collect_unlocked_spec.
  now destruct (forallb flag_converts l).
Qed.

Lemma usable_incomplete e : incomplete e -> usable e = false.
Proof.
  unfold incomplete, blank, usable.
  intros [[E|E]|[E|E]]; rewrite E; simpl; try reflexivity;
    now rewrite andb_false_r.
Qed.

Lemma build_apiToKey_app c1 c2 :
  build_apiToKey (c1 ++ c2) =
  fold_left
    (fun apiToKey a =>
       if truthy (get a "apiname") && truthy (get a "key")
       then Map_set apiToKey (get a "apiname") (get a "key")
       else apiToKey)
    c2 (build_apiToKey c1).
Proof. unfold build_apiToKey. now rewrite fold_left_app. Qed.

Lemma build_apiToKey_skip c1 e c2 :
  usable e = false ->
  build_apiToKey (c1 ++ e :: c2) = build_apiToKey (c1 ++ c2).
Proof.
  intros U. rewrite !build_apiToKey_app. simpl.
  unfold usable, apiname_of, key_of in U. now rewrite U.
Qed.

Lemma unlocked_keys_app manifest l1 l2 :
  unlocked_keys manifest (l1 ++ l2) =
  (unlocked_keys manifest l1 ++ unlocked_keys manifest l2)%list.
Proof. unfold unlocked_keys. apply flat_map_app. Qed.

Lemma unlocked_keys_hit manifest a l k :
  achieved a = Some true -> lookup manifest (apiname_of a) = Some k ->
  unlocked_keys manifest (a :: l) = k :: unlocked_keys manifest l.
Proof.
  intros A L. unfold unlocked_keys, is_achieved. simpl. now rewrite A, L.
Qed.

End HandleSync.
(* ================================================================== *)
(** ** Strings and patterns *)
(* ================================================================== *)

Lemma literal_ci_sound pat : forall s rest,
  literal_ci pat s = Some rest ->
  exists m, s = m ++ rest /\ same_ci m pat.
Proof.
  induction pat as [|c pat IH]; simpl; intros s rest E.
  - injection E as <-. now exists "".
  - destruct s as [|d s]; [discriminate|].
    destruct (Ascii.eqb (fold_case c) (fold_case d)) eqn:C; [|discriminate].
    apply Ascii.eqb_eq in C.
    destruct (IH _ _ E) as (m & -> & Hm).
    exists (String d m). split; [reflexivity|].
    unfold same_ci in *. simpl. now rewrite C, Hm.
Qed.

Lemma literal_ci_complete pat : forall m rest,
  same_ci m pat -> literal_ci pat (m ++ rest) = Some rest.
Proof.
  unfold same_ci.
  induction pat as [|c pat IH]; intros [|d m] rest E; simpl in *;
    try discriminate; try reflexivity.
  injection E as E1 E2. rewrite E1, Ascii.eqb_refl. now apply IH.
Qed.

Lemma digits_sound n : forall s d,
  digits n s = Some d ->
  exists rest, s = d ++ rest /\ String.length d = n /\
               all_chars is_digit d = true.
Proof.
  induction n as [|n IH]; simpl; intros s d E.
  - injection E as <-. now exists s.
  - destruct s as [|c s]; [discriminate|].
    destruct (is_digit c) eqn:C; [|discriminate].
    destruct (digits n s) as [d'|] eqn:D; [|discriminate].
    injection E as <-.
    destruct (IH _ _ D) as (rest & -> & L & A).
    exists rest. simpl. now rewrite C, L, A.
Qed.

Lemma digits_complete d : forall rest,
  all_chars is_digit d = true ->
  digits (String.length d) (d ++ rest) = Some d.
Proof.
  induction d as [|c d IH]; simpl; intros rest A.
  - reflexivity.
  - apply andb_true_iff in A. destruct A as [C A].
    now rewrite C, IH.
Qed.

Lemma take_while_all p s : all_chars p (take_while p s) = true.
Proof.
  induction s as [|c s IH]; simpl; [reflexivity|].
  destruct (p c) eqn:C; simpl; [now rewrite C | reflexivity].
Qed.

Lemma take_while_app p tok : forall rest,
  all_chars p tok = true ->
  take_while p (tok ++ rest) = tok ++ take_while p rest.
Proof.
  induction tok as [|c tok IH]; simpl; intros rest A.
  - reflexivity.
  - apply andb_true_iff in A. destruct A as [C A].
    now rewrite C, IH.
Qed.

(** [search] returns the match at the leftmost position that has one. *)
Lemma search_sound {A} (f : string -> option A) : forall s x,
  search f s = Some x ->
  exists pre t,
    s = pre ++ t /\ f t = Some x /\
    forall pre' t', s = pre' ++ t' ->
      (String.length pre' < String.length pre)%nat -> f t' = None.
Proof.
  induction s as [|c s IH]; simpl; intros x E.
  - destruct (f "") eqn:F; [|discriminate]. injection E as ->.
    exists "", "". repeat split; auto.
    simpl. intros. lia.
  - destruct (f (String c s)) eqn:F.
    + injection E as ->. exists "", (String c s). repeat split; auto.
      simpl. intros. lia.
    + destruct (IH _ E) as (pre & t & -> & Ft & Left).
      exists (String c pre), t. repeat split; auto.
      intros [|c' pre'] t' E' L; simpl in *.
      * now subst t'.
      * injection E' as <- E'. apply (Left pre' t' E'). lia.
Qed.

Lemma search_complete {A} (f : string -> option A) : forall pre t x,
  f t = Some x -> exists y, search f (pre ++ t) = Some y.
Proof.
  induction pre as [|c pre IH]; simpl; intros t x F.
  - destruct t; simpl; rewrite F; eauto.
  - destruct (f (String c (pre ++ t))); eauto.
Qed.

Lemma re_steamid64_spec s : re_steamid64 s = true <-> steamid_digits s.
Proof.
  unfold re_steamid64, steamid_digits.
  rewrite andb_true_iff, Nat.eqb_eq. reflexivity.
Qed.

Lemma profiles_at_head_complete m d rest :
  same_ci m profiles_prefix -> steamid_digits d ->
  profiles_at_head (m ++ d ++ rest) = Some d.
Proof.
  intros Hm [L A]. unfold profiles_at_head.
  rewrite (literal_ci_complete _ _ _ Hm), <- L.
  now apply digits_complete.
Qed.

Lemma vanity_at_head_complete m tok rest :
  same_ci m id_prefix -> tok <> "" -> all_chars is_token_char tok = true ->
  vanity_at_head (m ++ tok ++ rest) <> None.
Proof.
  intros Hm N A. unfold vanity_at_head.
  rewrite (literal_ci_complete _ _ _ Hm), (take_while_app _ _ _ A).
  destruct tok as [|c tok]; [congruence|]. simpl. discriminate.
Qed.

Lemma token_ends_take_while s :
  exists rest, s = take_while is_token_char s ++ rest /\ token_ends rest.
Proof.
  induction s as [|c s (rest & E & T)]; simpl.
  - now exists "".
  - destruct (is_token_char c) eqn:C.
    + exists rest. simpl. now rewrite <- E.
    + exists (String c s). simpl. auto.
Qed.

Lemma re_profiles_sound p d :
  re_profiles p = Some d -> leftmost_profiles p d.
Proof.
  intros E. apply search_sound in E.
  destruct E as (pre & t & -> & F & Left). unfold profiles_at_head in F.
  destruct (literal_ci profiles_prefix t) as [r|] eqn:Lit; [|discriminate].
  destruct (literal_ci_sound _ _ _ Lit) as (m & -> & Hm).
  destruct (digits_sound _ _ _ F) as (rest & -> & Len & All).
  exists pre. split.
  - exists m, rest. repeat split; auto.
  - intros pre' d' (m' & rest' & E' & Hm' & Hd').
    destruct (Nat.le_gt_cases (String.length pre) (String.length pre'))
      as [|Lt]; [assumption|].
    specialize (Left _ _ E' Lt).
    rewrite (profiles_at_head_complete _ _ _ Hm' Hd') in Left.
    discriminate.
Qed.

Lemma re_profiles_complete p pre d :
  community_profiles_form p pre d -> exists d', re_profiles p = Some d'.
Proof.
  intros (m & rest & -> & Hm & Hd).
  apply (search_complete _ pre _ d).
  now apply profiles_at_head_complete.
Qed.

Lemma re_profiles_none p :
  re_profiles p = None <-> forall pre d, ~ community_profiles_form p pre d.
Proof.
  split.
  - intros E pre d F.
    destruct (re_profiles_complete _ _ _ F). congruence.
  - intros N. destruct (re_profiles p) as [d|] eqn:E; [|reflexivity].
    destruct (re_profiles_sound _ _ E) as (pre & F & _).
    now destruct (N pre d).
Qed.

Lemma re_vanity_sound p tok :
  re_vanity p = Some tok -> leftmost_vanity p tok.
Proof.
  intros E. apply search_sound in E.
  destruct E as (pre & t & -> & F & Left). unfold vanity_at_head in F.
  destruct (literal_ci id_prefix t) as [r|] eqn:Lit; [|discriminate].
  destruct (literal_ci_sound _ _ _ Lit) as (m & -> & Hm).
  destruct (String.eqb (take_while is_token_char r) "") eqn:Ne;
    [discriminate|].
  injection F as <-. apply String.eqb_neq in Ne.
  destruct (token_ends_take_while r) as (rest & Er & T).
  exists pre, m, rest. repeat split; auto.
  - now rewrite <- Er.
  - apply take_while_all.
  - intros pre' tok' (m' & rest' & E' & Hm' & N' & A').
    destruct (Nat.le_gt_cases (String.length pre) (String.length pre'))
      as [|Lt]; [assumption|].
    specialize (Left _ _ E' Lt).
    now destruct (vanity_at_head_complete _ _ rest' Hm' N' A').
Qed.

Lemma re_vanity_complete p pre tok :
  community_vanity_form p pre tok -> exists tok', re_vanity p = Some tok'.
Proof.
  intros (m & rest & -> & Hm & N & A).
  pose proof (vanity_at_head_complete _ _ rest Hm N A) as NN.
  destruct (vanity_at_head (m ++ tok ++ rest)) as [x|] eqn:V;
    [|congruence].
  now apply (search_complete _ pre _ x).
Qed.

Lemma re_vanity_none p :
  re_vanity p = None <-> forall pre tok, ~ community_vanity_form p pre tok.
Proof.
  split.
  - intros E pre tok F.
    destruct (re_vanity_complete _ _ _ F). congruence.
  - intros N. destruct (re_vanity p) as [tok|] eqn:E; [|reflexivity].
    destruct (re_vanity_sound _ _ E) as (pre & m & rest & F & Hm & Ne & A & _).
    destruct (N pre tok). now exists m, rest.
Qed.

(* ================================================================== *)
(* ================================================================== *)
(** ** The identifier resolver *)
(* ================================================================== *)

Section Resolver.

Context `{rt : Runtime}.

Lemma trimmed_string s : trimmed (VStr s) = Return (trim s).
Proof.
  unfold trimmed, String_of, or_else. simpl.
  destruct (String.eqb_spec s ""); simpl; now subst.
Qed.

Lemma cleanProfileUrl_string s : cleanProfileUrl (VStr s) = Return (trim s).
Proof. apply trimmed_string. Qed.

Lemma resolveVanity_trace cfg net vanity tr :
  snd (resolveVanity cfg net vanity tr) =
  (tr ++ [GET (vanity_url cfg vanity)])%list.
Proof.
  unfold resolveVanity, bind, fetch.
  destruct (net _) as [e|r]; simpl; [reflexivity|].
  destruct (negb (ok r)); simpl; [reflexivity|].
  now destruct (_ || _).
Qed.

(** The resolver once the profile is cleaned to [p]. *)
Lemma resolveSteamId64_cleaned cfg net profile p tr :
  cleanProfileUrl profile = Return p ->
  resolveSteamId64 cfg net profile tr =
  if re_steamid64 p then (Return (VStr p), tr)
  else match re_profiles p with
       | Some id => (Return (VStr id), tr)
       | None =>
           match re_vanity p with
           | Some tok => resolveVanity cfg net tok tr
           | None => resolveVanity cfg net p tr
           end
       end.
Proof.
  intros C. unfold resolveSteamId64, bind, lift. rewrite C.
  unfold isSteamID64, String_of. simpl.
  destruct (re_steamid64 p); [reflexivity|].
  destruct (re_profiles p); [reflexivity|].
  now destruct (re_vanity p).
Qed.

Lemma resolveSteamId64_throws cfg net profile e tr :
  cleanProfileUrl profile = Throw e ->
  resolveSteamId64 cfg net profile tr = (Throw e, tr).
Proof.
  intros C. unfold resolveSteamId64, bind, lift. now rewrite C.
Qed.

End Resolver.

(** C3, as amended: [resolveSteamId64] applies its steps in order, the
    first match winning.  With [p] the trimmed input: when [p] is exactly
    17 digits it is returned and the trace of outbound calls is unchanged;
    otherwise, when [p] contains [steamcommunity.com/profiles/] followed by
    17 digits (letters in any case), the digits of the leftmost such place
    are returned, again without a call; otherwise, when [p] contains
    [steamcommunity.com/id/] followed by a token free of [/], [?], [#],
    vanity resolution runs on the whole token of the leftmost such place,
    by one call for exactly that token; otherwise vanity resolution runs
    on [p] itself. *)
Theorem resolveSteamId64_first_match `{rt : Runtime}
  (cfg : config) (net : network) (profile : string) (tr : list request) :
  let p := trim profile in
  (steamid_digits p ->
   resolveSteamId64 cfg net (VStr profile) tr = (Return (VStr p), tr))
  /\ (~ steamid_digits p ->
      (exists pre d, community_profiles_form p pre d) ->
      exists d,
        leftmost_profiles p d /\
        resolveSteamId64 cfg net (VStr profile) tr = (Return (VStr d), tr))
  /\ (~ steamid_digits p ->
      (forall pre d, ~ community_profiles_form p pre d) ->
      (exists pre tok, community_vanity_form p pre tok) ->
      exists tok,
        leftmost_vanity p tok /\
        resolveSteamId64 cfg net (VStr profile) tr
          = resolveVanity cfg net tok tr /\
        snd (resolveSteamId64 cfg net (VStr profile) tr)
          = (tr ++ [GET (vanity_url cfg tok)])%list)
  /\ (~ steamid_digits p ->
      (forall pre d, ~ community_profiles_form p pre d) ->
      (forall pre tok, ~ community_vanity_form p pre tok) ->
      resolveSteamId64 cfg net (VStr profile) tr
        = resolveVanity cfg net p tr /\
      snd (resolveSteamId64 cfg net (VStr profile) tr)
        = (tr ++ [GET (vanity_url cfg p)])%list).
Proof.
  intros p.
  rewrite (resolveSteamId64_cleaned cfg net (VStr profile) p tr)
    by apply cleanProfileUrl_string.
  split; [|split; [|split]].
  - intros D. apply re_steamid64_spec in D. now rewrite D.
  - intros ND [pre [d F]].
    destruct (re_steamid64 p) eqn:R;
      [now apply re_steamid64_spec in R|].
    destruct (re_profiles_complete _ _ _ F) as [d' E].
    exists d'. split; [now apply re_profiles_sound|].
    now rewrite E.
  - intros ND NP [pre [tok F]].
    destruct (re_steamid64 p) eqn:R;
      [now apply re_steamid64_spec in R|].
    apply re_profiles_none in NP. rewrite NP.
    destruct (re_vanity_complete _ _ _ F) as [tok' E].
    exists tok'. rewrite E.
    repeat split; [now apply re_vanity_sound | apply resolveVanity_trace].
  - intros ND NP NV.
    destruct (re_steamid64 p) eqn:R;
      [now apply re_steamid64_spec in R|].
    apply re_profiles_none in NP. apply re_vanity_none in NV.
    rewrite NP, NV. split; [reflexivity | apply resolveVanity_trace].
Qed.

Lemma resolveSteamId64_first_match_witness :
  resolveSteamId64 (rt := example_runtime) dev_cfg (always VNull)
    (VStr "  76561198000000000 ") []
    = (Return (VStr "76561198000000000"), [])
  /\ (exists d,
        leftmost_profiles
          (trim "https://SteamCommunity.com/profiles/76561198000000000/") d /\
        resolveSteamId64 (rt := example_runtime) dev_cfg (always VNull)
          (VStr "https://SteamCommunity.com/profiles/76561198000000000/") []
          = (Return (VStr d), []))
  /\ (exists tok,
        leftmost_vanity (trim "https://steamcommunity.com/id/gabe/home") tok /\
        resolveSteamId64 (rt := example_runtime) dev_cfg (always VNull)
          (VStr "https://steamcommunity.com/id/gabe/home") []
          = resolveVanity (rt := example_runtime) dev_cfg (always VNull)
              tok [] /\
        snd (resolveSteamId64 (rt := example_runtime) dev_cfg (always VNull)
               (VStr "https://steamcommunity.com/id/gabe/home") [])
          = ([] ++ [GET (vanity_url dev_cfg tok)])%list)
  /\ (resolveSteamId64 (rt := example_runtime) dev_cfg (always VNull)
        (VStr " gabe") []
        = resolveVanity (rt := example_runtime) dev_cfg (always VNull)
            (trim " gabe") [] /\
      snd (resolveSteamId64 (rt := example_runtime) dev_cfg (always VNull)
             (VStr " gabe") [])
        = ([] ++ [GET (vanity_url dev_cfg (trim " gabe"))])%list).
Proof.
  split; [|split; [|split]].
  - apply (resolveSteamId64_first_match (rt := example_runtime)
             dev_cfg (always VNull) "  76561198000000000 " []).
    split; reflexivity.
  - apply (resolveSteamId64_first_match (rt := example_runtime)
             dev_cfg (always VNull)
             "https://SteamCommunity.com/profiles/76561198000000000/" []).
    + intros [L _]. discriminate L.
    + exists "https://", "76561198000000000".
      exists "SteamCommunity.com/profiles/", "/".
      repeat split; reflexivity.
  - apply (resolveSteamId64_first_match (rt := example_runtime)
             dev_cfg (always VNull)
             "https://steamcommunity.com/id/gabe/home" []).
    + intros [L _]. discriminate L.
    + apply re_profiles_none. reflexivity.
    + exists "https://", "gabe". exists "steamcommunity.com/id/", "/home".
      repeat split; try reflexivity. discriminate.
  - apply (resolveSteamId64_first_match (rt := example_runtime)
             dev_cfg (always VNull) " gabe" []).
    + intros [L _]. discriminate L.
    + apply re_profiles_none. reflexivity.
    + apply re_vanity_none. reflexivity.
Defined.

(** C3 as stated fails: the forms of the specification name no host,
    while the patterns of lines 95 and 98 only match after
    [steamcommunity.com].  The input
    [https://example.com/profiles/76561198000000000] contains [/profiles/]
    followed by 17 digits, yet the digits are not returned: the whole
    string goes to vanity resolution, by a call.  Likewise
    [https://example.com/id/gabe] contains [/id/] followed by a token, yet
    vanity resolution runs on the whole string, not on the token. *)
Lemma resolveSteamId64_other_host_counterexample :
  stated_profiles_form "https://example.com/profiles/76561198000000000"
    "76561198000000000"
  /\ resolveSteamId64 (rt := example_runtime) dev_cfg (always VNull)
       (VStr "https://example.com/profiles/76561198000000000") []
     = resolveVanity (rt := example_runtime) dev_cfg (always VNull)
         "https://example.com/profiles/76561198000000000" []
  /\ snd (resolveSteamId64 (rt := example_runtime) dev_cfg (always VNull)
            (VStr "https://example.com/profiles/76561198000000000") [])
     = [GET (vanity_url dev_cfg
               "https://example.com/profiles/76561198000000000")]
  /\ fst (resolveSteamId64 (rt := example_runtime) dev_cfg (always VNull)
            (VStr "https://example.com/profiles/76561198000000000") [])
     <> Return (VStr "76561198000000000")
  /\ stated_vanity_form "https://example.com/id/gabe" "gabe"
  /\ snd (resolveSteamId64 (rt := example_runtime) dev_cfg (always VNull)
            (VStr "https://example.com/id/gabe") [])
     = [GET (vanity_url dev_cfg "https://example.com/id/gabe")]
  /\ vanity_url dev_cfg "https://example.com/id/gabe"
     <> vanity_url dev_cfg "gabe".
Proof.
  split.
  { exists "https://example.com", "/profiles/", "".
    repeat split; reflexivity. }
  split; [reflexivity|]. split; [reflexivity|]. split; [discriminate|].
  split.
  { exists "https://example.com", "/id/", "".
    repeat split; try reflexivity. discriminate. }
  split; [reflexivity | discriminate].
Qed.

(* ================================================================== *)
(** ** The sync orchestrator *)
(* ================================================================== *)

(** C1, as amended: [handleSync] passes on a failure of the resolver or of
    the fetcher; it throws a TypeError when the achieved flag of some
    fetched record cannot be converted to a number (an object with a
    [toString] field of its own); and otherwise it returns the resolved
    id, the unlocked list and its length, where the unlocked list is
    obtained from a lookup built from the manifest entries whose api-name
    and key are both non-empty (the last such entry winning for a
    duplicated api-name) by going through the achievements in the order of
    the stats answer and appending the mapped key of each record whose
    achieved flag is 1 and whose api-name is in the lookup.  For
    achievements A:1, B:0, C:1 and the manifest A->k1, C->k3 the list is
    k1, k3 and the count 2. *)
Theorem handleSync_unlocked_keys `{rt : Runtime}
  (cfg : config) (net : network) (profile : value) (client : list value)
  (tr : list request) :
  handleSync cfg net profile client tr =
    match resolveSteamId64 cfg net profile tr with
    | (Throw e, tr1) => (Throw e, tr1)
    | (Return steamid64, tr1) =>
        match getPlayerAchievements cfg net steamid64 tr1 with
        | (Throw e, tr2) => (Throw e, tr2)
        | (Return achievements, tr2) =>
            if forallb flag_converts achievements
            then
              let unlocked := unlocked_keys client achievements in
              (Return
                 (VObj [("steamid64", steamid64);
                        ("unlocked", VArr unlocked);
                        ("count",
                         VNum (Int (Z.of_nat (List.length unlocked))))]),
               tr2)
            else (Throw type_error, tr2)
        end
    end
  /\ forallb flag_converts
       [achievement "A" 1; achievement "B" 0; achievement "C" 1] = true
  /\ unlocked_keys [entry "A" "k1"; entry "C" "k3"]
       [achievement "A" 1; achievement "B" 0; achievement "C" 1]
     = [VStr "k1"; VStr "k3"]
  /\ sync_result (VStr example_id) [VStr "k1"; VStr "k3"]
     = VObj [("steamid64", VStr example_id);
             ("unlocked", VArr [VStr "k1"; VStr "k3"]);
             ("count", VNum (Int 2))].
Proof.
  split; [apply handleSync_run | repeat split].
Qed.

(** C1 as the specification states it fails: with the manifest
    A->k1, A->(empty key) and the achievement A:1, the last entry for A
    carries the empty key, so the stated construction yields the empty
    string, while [handleSync] returns k1. *)
Lemma handleSync_last_entry_counterexample :
  let client := [entry "A" "k1"; entry "A" ""] in
  let achievements := [achievement "A" 1] in
  run (handleSync (rt := example_runtime) dev_cfg
         (always (stats_body achievements)) (VStr example_id) client)
    = (Return (sync_result (VStr example_id) [VStr "k1"]),
       [GET (stats_url dev_cfg example_id)])
  /\ unlocked_keys_all_entries (rt := example_runtime) client achievements
     = [VStr ""]
  /\ [VStr "k1"] <> [VStr ""].
Proof.
  split; [reflexivity | split; [reflexivity | discriminate]].
Qed.

(** C9: the unlocked list keeps repetitions.  Whenever two records of the
    stats answer are achieved and the lookup maps their api-names (equal or
    distinct) to the same key, that key occurs once for each of them in the
    unlocked list, and the count is the length of the list with both
    occurrences (unless the flag of some record of the answer cannot be
    converted, in which case handleSync throws).  Two instances: the
    api-name A achieved twice with the manifest A->k1, and A, B achieved
    with the manifest A->k, B->k. *)
Theorem handleSync_keeps_duplicates `{rt : Runtime}
  (cfg : config) (net : network) (profile : value) (client : list value)
  (steamid64 : value) (l1 l2 l3 : list value) (a b k : value)
  (tr tr1 tr2 : list request) :
  resolveSteamId64 cfg net profile tr = (Return steamid64, tr1) ->
  getPlayerAchievements cfg net steamid64 tr1
    = (Return (l1 ++ a :: l2 ++ b :: l3)%list, tr2) ->
  achieved a = Some true -> achieved b = Some true ->
  lookup client (apiname_of a) = Some k ->
  lookup client (apiname_of b) = Some k ->
  (exists u1 u2 u3,
     handleSync cfg net profile client tr
       = (if forallb flag_converts (l1 ++ l2 ++ l3)
          then
            Return
              (VObj [("steamid64", steamid64);
                     ("unlocked", VArr (u1 ++ k :: u2 ++ k :: u3)%list);
                     ("count",
                      VNum (Int (Z.of_nat (List.length u1 + List.length u2
                                           + List.length u3 + 2))))])
          else Throw type_error,
          tr2))
  /\ unlocked_keys [entry "A" "k1"] [achievement "A" 1; achievement "A" 1]
     = [VStr "k1"; VStr "k1"]
  /\ unlocked_keys [entry "A" "k"; entry "B" "k"]
       [achievement "A" 1; achievement "B" 1]
     = [VStr "k"; VStr "k"].
Proof.
  intros R G Aa Ab La Lb.
  split; [|split; reflexivity].
  exists (unlocked_keys client l1), (unlocked_keys client l2),
         (unlocked_keys client l3).
  rewrite handleSync_run, R, G.
  assert (F : forallb flag_converts (l1 ++ a :: l2 ++ b :: l3)
              = forallb flag_converts (l1 ++ l2 ++ l3)).
  { rewrite !forallb_app. simpl. rewrite !forallb_app. simpl.
    unfold flag_converts at 2 4. now rewrite Aa, Ab. }
  rewrite F. destruct (forallb flag_converts (l1 ++ l2 ++ l3));
    [|reflexivity].
  rewrite unlocked_keys_app, (unlocked_keys_hit _ _ _ _ Aa La).
  rewrite unlocked_keys_app, (unlocked_keys_hit _ _ _ _ Ab Lb).
  unfold sync_result. do 9 f_equal.
  rewrite !length_app. simpl. rewrite !length_app. simpl. lia.
Qed.

Lemma handleSync_keeps_duplicates_witness :
  exists u1 u2 u3,
    handleSync (rt := example_runtime) dev_cfg
      (always (stats_body [achievement "A" 1; achievement "B" 1]))
      (VStr example_id) [entry "A" "k"; entry "B" "k"] []
    = (if forallb (flag_converts (rt := example_runtime)) ([] ++ [] ++ [])
       then
         Return
           (VObj [("steamid64", VStr example_id);
                  ("unlocked",
                   VArr (u1 ++ VStr "k" :: u2 ++ VStr "k" :: u3)%list);
                  ("count",
                   VNum (Int (Z.of_nat (List.length u1 + List.length u2
                                        + List.length u3 + 2))))])
       else Throw type_error,
       [GET (stats_url dev_cfg example_id)]).
Proof.
  apply (handleSync_keeps_duplicates (rt := example_runtime)
           dev_cfg (always (stats_body [achievement "A" 1; achievement "B" 1]))
           (VStr example_id) [entry "A" "k"; entry "B" "k"]
           (VStr example_id) [] [] []
           (achievement "A" 1) (achievement "B" 1) (VStr "k")
           [] [] [GET (stats_url dev_cfg example_id)]);
    reflexivity.
Defined.

(** C10: a manifest entry whose api-name or key is absent or the empty
    string is ignored by [handleSync]: removing it changes neither the
    lookup nor the outcome.  Hence an achieved record whose only entry has
    such a key yields nothing (the loop returns the empty list, or throws
    when the flag of a record cannot be converted to a number), and adding
    such an entry after the others leaves every lookup as it was, so that
    an earlier entry with a key is not overridden. *)
Theorem handleSync_ignores_incomplete `{rt : Runtime}
  (cfg : config) (net : network) (e : value) :
  incomplete e ->
  (forall c1 c2,
     build_apiToKey (c1 ++ e :: c2) = build_apiToKey (c1 ++ c2))
  /\ (forall c1 c2 profile tr,
        handleSync cfg net profile (c1 ++ e :: c2) tr
        = handleSync cfg net profile (c1 ++ c2) tr)
  /\ (forall achievements,
        collect_unlocked (build_apiToKey [e]) achievements []
        = if forallb flag_converts achievements
          then Return [] else Throw type_error)
  /\ (forall c name,
        Map_get (build_apiToKey (c ++ [e])) name
        = Map_get (build_apiToKey c) name).
Proof.
  intros I. apply usable_incomplete in I.
  assert (S : forall c1 c2,
             build_apiToKey (c1 ++ e :: c2) = build_apiToKey (c1 ++ c2))
    by (intros; now apply build_apiToKey_skip).
  split; [exact S|]. split; [|split].
  - intros c1 c2 profile tr. unfold handleSync. now rewrite S.
  - intros l. pose proof (S [] []) as S0. simpl in S0. rewrite S0.
    rewrite collect_unlocked_flat.
    destruct (forallb flag_converts l); [|reflexivity].
    f_equal. simpl. induction l as [|a l IH]; simpl; [reflexivity|].
    rewrite andb_false_r. exact IH.
  - intros c name. now rewrite S, app_nil_r.
Qed.

Lemma handleSync_ignores_incomplete_witness :
  (forall c1 c2,
     build_apiToKey (c1 ++ entry "A" "" :: c2) = build_apiToKey (c1 ++ c2))
  /\ (forall c1 c2 profile tr,
        handleSync (rt := example_runtime) dev_cfg (always VNull) profile
          (c1 ++ entry "A" "" :: c2) tr
        = handleSync (rt := example_runtime) dev_cfg (always VNull) profile
            (c1 ++ c2) tr)
  /\ (forall achievements,
        collect_unlocked (rt := example_runtime)
          (build_apiToKey [entry "A" ""]) achievements []
        = if forallb (flag_converts (rt := example_runtime)) achievements
          then Return [] else Throw type_error)
  /\ (forall c name,
        Map_get (build_apiToKey (c ++ [entry "A" ""])) name
        = Map_get (build_apiToKey c) name).
Proof.
  apply (handleSync_ignores_incomplete (rt := example_runtime)
           dev_cfg (always VNull) (entry "A" "")).
  right. right. reflexivity.
Defined.

(* ================================================================== *)
(** ** The endpoint *)
(* ================================================================== *)

Section Endpoint.

Context `{rt : Runtime}.
Variable cfg : config.
Variable net : network.

Lemma truthy_string s : truthy (VStr s) = false <-> s = "".
Proof.
  simpl. rewrite negb_false_iff. apply String.eqb_eq.
Qed.

Lemma trimmed_cases v :
  (exists s, String_of (or_else v (VStr "")) = Return s
             /\ trimmed v = Return (trim s))
  \/ (String_of (or_else v (VStr "")) = Throw type_error
      /\ trimmed v = Throw type_error).
Proof.
  unfold trimmed, String_of.
  destruct (ToString (or_else v (VStr ""))) as [s|]; [left | right]; eauto.
Qed.

Lemma post_missing_profile req tr :
  profile_of req = Return "" ->
  post_steam_sync cfg net req tr = (Return missing_profile, tr).
Proof.
  unfold profile_of. intros E. unfold post_steam_sync, try_catch, bind, lift.
  destruct (trimmed_cases (get (req_body req) "profile"))
    as [(s & S & T) | (S & T)]; rewrite T in E; [|discriminate E].
  injection E as E. now rewrite S, E.
Qed.

(** A profile that cannot be converted is answered 500, without call. *)
Lemma post_profile_throws req e tr :
  profile_of req = Throw e ->
  post_steam_sync cfg net req tr = (Return (server_error e), tr).
Proof.
  unfold profile_of. intros E. unfold post_steam_sync, try_catch, bind, lift.
  destruct (trimmed_cases (get (req_body req) "profile"))
    as [(s & S & T) | (S & T)]; rewrite T in E; [discriminate E|].
  injection E as <-. now rewrite S.
Qed.

(** So is a token that cannot be converted. *)
Lemma post_token_throws req p e tr :
  profile_of req = Return p -> p <> "" -> token_of req = Throw e ->
  post_steam_sync cfg net req tr = (Return (server_error e), tr).
Proof.
  unfold profile_of, token_of. intros P N E.
  unfold post_steam_sync, try_catch, bind, lift.
  destruct (trimmed_cases (get (req_body req) "profile"))
    as [(s & S & T) | (S & T)]; rewrite T in P; [|discriminate P].
  injection P as P. rewrite S, P.
  destruct (truthy (VStr p)) eqn:Tp; [|now apply truthy_string in Tp].
  change (negb true) with false. cbv iota.
  destruct (trimmed_cases (get (req_body req) "turnstileToken"))
    as [(s' & S' & T') | (S' & T')]; rewrite T' in E; [discriminate E|].
  injection E as <-. now rewrite S'.
Qed.

(** With a profile and a token, the endpoint asks the verifier, then the
    orchestrator, and turns every exception into a 500 answer. *)
Lemma post_steam_sync_run req p t tr :
  profile_of req = Return p -> p <> "" -> token_of req = Return t ->
  post_steam_sync cfg net req tr =
  match verifyTurnstileOrSkip cfg net t (req_ip req) tr with
  | (Throw e, tr1) => (Return (server_error e), tr1)
  | (Return ts, tr1) =>
      if negb (truthy (get ts "success"))
      then (Return {| res_status := 400;
                      res_json := VObj [("error", get ts "error");
                                        ("details", get ts "details")] |},
            tr1)
      else
        match handleSync cfg net (VStr p) (client_of req) tr1 with
        | (Throw e, tr2) => (Return (server_error e), tr2)
        | (Return out, tr2) =>
            (Return {| res_status := 200; res_json := out |}, tr2)
        end
  end.
Proof.
  unfold profile_of, token_of. intros P N E.
  unfold post_steam_sync, try_catch, bind, lift.
  destruct (trimmed_cases (get (req_body req) "profile"))
    as [(s & S & T) | (S & T)]; rewrite T in P; [|discriminate P].
  injection P as P. rewrite S, P.
  destruct (truthy (VStr p)) eqn:Tp; [|now apply truthy_string in Tp].
  change (negb true) with false. cbv iota.
  destruct (trimmed_cases (get (req_body req) "turnstileToken"))
    as [(s' & S' & T') | (S' & T')]; rewrite T' in E; [|discriminate E].
  injection E as E. rewrite S', E. fold (client_of req).
  destruct (verifyTurnstileOrSkip cfg net t (req_ip req) tr)
    as [[ts|e] tr1]; [|reflexivity].
  destruct (negb (truthy (get ts "success"))); [reflexivity|].
  now destruct (handleSync cfg net (VStr p) (client_of req) tr1)
    as [[out|e] tr2].
Qed.

(** The ways a request is read: the profile or the token cannot be
    converted, the profile is empty, or both are there. *)
Lemma request_cases req :
  profile_of req = Throw type_error
  \/ profile_of req = Return ""
  \/ (exists p, profile_of req = Return p /\ p <> ""
                /\ token_of req = Throw type_error)
  \/ (exists p t, profile_of req = Return p /\ p <> ""
                  /\ token_of req = Return t).
Proof.
  unfold profile_of, token_of.
  destruct (trimmed_cases (get (req_body req) "profile"))
    as [(s & _ & T) | (_ & T)]; rewrite T; [|now left].
  right. destruct (String.eqb_spec (trim s) "") as [E|N].
  { left. now rewrite E. }
  right.
  destruct (trimmed_cases (get (req_body req) "turnstileToken"))
    as [(s' & _ & T') | (_ & T')]; rewrite T'.
  - right. now exists (trim s), (trim s').
  - left. now exists (trim s).
Qed.

End Endpoint.
(* ================================================================== *)
(** ** The challenge verifier *)
(* ================================================================== *)

Section Verifier.

Variable cfg : config.
Variable net : network.

Lemma verify_dev token remoteip tr :
  IS_PROD cfg = false ->
  verifyTurnstileOrSkip cfg net token remoteip tr
  = (Return obj_true_skipped, tr).
Proof. intros P. unfold verifyTurnstileOrSkip. now rewrite P. Qed.

Lemma verify_no_secret token remoteip tr :
  IS_PROD cfg = true -> configured (TURNSTILE_SECRET_KEY cfg) = false ->
  verifyTurnstileOrSkip cfg net token remoteip tr
  = (Throw (Error "Missing TURNSTILE_SECRET_KEY in production"), tr).
Proof.
  intros P S. unfold verifyTurnstileOrSkip, configured in *.
  now rewrite P, S.
Qed.

Lemma verify_no_token remoteip tr :
  IS_PROD cfg = true -> configured (TURNSTILE_SECRET_KEY cfg) = true ->
  verifyTurnstileOrSkip cfg net "" remoteip tr
  = (Return (VObj [("success", VBool false);
                   ("error", VStr "Missing turnstileToken")]), tr).
Proof.
  intros P S. unfold verifyTurnstileOrSkip, configured in *.
  now rewrite P, S.
Qed.

Lemma verify_call token remoteip tr :
  IS_PROD cfg = true -> configured (TURNSTILE_SECRET_KEY cfg) = true ->
  token <> "" ->
  verifyTurnstileOrSkip cfg net token remoteip tr
  = match net (turnstile_call cfg token remoteip) with
    | Rejected e =>
        (Throw e, (tr ++ [turnstile_call cfg token remoteip])%list)
    | Resolved resp =>
        (Return
           (if negb (truthy (get (data_of resp) "success"))
            then VObj [("success", VBool false);
                       ("error", VStr "Turnstile failed");
                       ("details", data_of resp)]
            else VObj [("success", VBool true)]),
         (tr ++ [turnstile_call cfg token remoteip])%list)
    end.
Proof.
  intros P S N. unfold verifyTurnstileOrSkip, configured in *.
  rewrite P, S. simpl negb. cbv iota.
  destruct (truthy (VStr token)) eqn:T;
    [|now apply truthy_string in T].
  change (negb true) with false. cbv iota.
  unfold bind, fetch. fold (turnstile_call cfg token remoteip).
  destruct (net _) as [e|resp]; [reflexivity|].
  now destruct (negb (truthy (get (data_of resp) "success"))).
Qed.

End Verifier.

(** C6, as amended: the verifier makes no network call in exactly three
    cases.  Outside production it returns success (marked as skipped) for
    every token, the empty one included.  In production without a
    configured secret it throws "Missing TURNSTILE_SECRET_KEY in production"
    whatever the token.  In production with the secret and an empty token it
    returns success:false with the reason "Missing turnstileToken".  In the
    remaining case (production, secret, non-empty token) it makes exactly
    one call. *)
Theorem verifyTurnstileOrSkip_short_circuits
  (cfg : config) (net : network) (token : string) (remoteip : option string)
  (tr : list request) :
  (IS_PROD cfg = false ->
   verifyTurnstileOrSkip cfg net token remoteip tr
   = (Return (VObj [("success", VBool true); ("skipped", VBool true)]), tr))
  /\ (IS_PROD cfg = true -> configured (TURNSTILE_SECRET_KEY cfg) = false ->
      verifyTurnstileOrSkip cfg net token remoteip tr
      = (Throw (Error "Missing TURNSTILE_SECRET_KEY in production"), tr))
  /\ (IS_PROD cfg = true -> configured (TURNSTILE_SECRET_KEY cfg) = true ->
      token = "" ->
      verifyTurnstileOrSkip cfg net token remoteip tr
      = (Return (VObj [("success", VBool false);
                       ("error", VStr "Missing turnstileToken")]), tr))
  /\ (IS_PROD cfg = true -> configured (TURNSTILE_SECRET_KEY cfg) = true ->
      token <> "" ->
      snd (verifyTurnstileOrSkip cfg net token remoteip tr)
      = (tr ++ [turnstile_call cfg token remoteip])%list).
Proof.
  split; [|split; [|split]].
  - apply verify_dev.
  - apply verify_no_secret.
  - intros P S ->. now apply verify_no_token.
  - intros P S N. rewrite verify_call by assumption.
    now destruct (net _).
Qed.

Lemma verifyTurnstileOrSkip_short_circuits_witness :
  verifyTurnstileOrSkip dev_cfg (always VNull) "" None []
    = (Return (VObj [("success", VBool true); ("skipped", VBool true)]), [])
  /\ verifyTurnstileOrSkip prod_cfg_no_secret (always VNull) "tok" None []
     = (Throw (Error "Missing TURNSTILE_SECRET_KEY in production"), [])
  /\ verifyTurnstileOrSkip prod_cfg (always VNull) "" None []
     = (Return (VObj [("success", VBool false);
                      ("error", VStr "Missing turnstileToken")]), [])
  /\ snd (verifyTurnstileOrSkip prod_cfg (always VNull) "tok" None [])
     = ([] ++ [turnstile_call prod_cfg "tok" None])%list.
Proof.
  split; [|split; [|split]].
  - apply (verifyTurnstileOrSkip_short_circuits
             dev_cfg (always VNull) "" None []). reflexivity.
  - apply (verifyTurnstileOrSkip_short_circuits
             prod_cfg_no_secret (always VNull) "tok" None []); reflexivity.
  - apply (verifyTurnstileOrSkip_short_circuits
             prod_cfg (always VNull) "" None []); reflexivity.
  - apply (verifyTurnstileOrSkip_short_circuits
             prod_cfg (always VNull) "tok" None []);
      [reflexivity | reflexivity | discriminate].
Defined.

(** C6 as stated fails: in production with an empty token but no secret
    configured the verifier does not return success:false, it throws; and
    production without a secret is a third case without a network call. *)
Lemma verifyTurnstileOrSkip_no_secret_counterexample :
  IS_PROD prod_cfg_no_secret = true
  /\ run (verifyTurnstileOrSkip prod_cfg_no_secret (always VNull) "" None)
     = (Throw (Error "Missing TURNSTILE_SECRET_KEY in production"), [])
  /\ run (verifyTurnstileOrSkip prod_cfg_no_secret (always VNull) "tok" None)
     = (Throw (Error "Missing TURNSTILE_SECRET_KEY in production"), []).
Proof. repeat split. Qed.

Lemma data_of_unparseable resp :
  parsed resp = None -> absent (get (data_of resp) "success").
Proof. intros E. unfold data_of. now rewrite E. Qed.

(** C5, as amended: in production mode, with the secret configured, for a
    request whose profile and token are read as non-empty strings, when
    the answer of the challenge service has a body that cannot be parsed or
    a success flag that is false (or otherwise falsy), the verifier returns
    success:false with the reason "Turnstile failed" and the parsed body
    ([null] when unparseable) as details, and the endpoint answers 400 with
    that reason and those details; when the call itself fails, the verifier
    throws the error of the call and the endpoint answers 500 with its
    message. *)
Theorem turnstile_failure_answers `{rt : Runtime}
  (cfg : config) (net : network) (req : http_request) (tr : list request)
  (profile token : string) :
  IS_PROD cfg = true -> configured (TURNSTILE_SECRET_KEY cfg) = true ->
  profile_of req = Return profile -> profile <> "" ->
  token_of req = Return token -> token <> "" ->
  let call := turnstile_call cfg token (req_ip req) in
  (forall resp,
     net call = Resolved resp ->
     parsed resp = None \/ absent (get (data_of resp) "success") ->
     verifyTurnstileOrSkip cfg net token (req_ip req) tr
     = (Return (VObj [("success", VBool false);
                      ("error", VStr "Turnstile failed");
                      ("details", data_of resp)]),
        (tr ++ [call])%list)
     /\ post_steam_sync cfg net req tr
        = (Return {| res_status := 400;
                     res_json := VObj [("error", VStr "Turnstile failed");
                                       ("details", data_of resp)] |},
           (tr ++ [call])%list))
  /\ (forall e,
        net call = Rejected e ->
        verifyTurnstileOrSkip cfg net token (req_ip req) tr
        = (Throw e, (tr ++ [call])%list)
        /\ post_steam_sync cfg net req tr
           = (Return {| res_status := 500;
                        res_json :=
                          VObj [("error",
                                 or_else (VStr (message e))
                                         (VStr "Server error"))] |},
              (tr ++ [call])%list)).
Proof.
  intros P S Pr NP Tk NT call. split.
  - intros resp N F.
    assert (A : truthy (get (data_of resp) "success") = false)
      by (destruct F as [F|F]; [now apply data_of_unparseable | exact F]).
    assert (V : verifyTurnstileOrSkip cfg net token (req_ip req) tr
                = (Return (VObj [("success", VBool false);
                                 ("error", VStr "Turnstile failed");
                                 ("details", data_of resp)]),
                   (tr ++ [call])%list)).
    { rewrite verify_call by assumption. fold call. now rewrite N, A. }
    split; [exact V|].
    rewrite (post_steam_sync_run cfg net req profile token) by assumption.
    now rewrite V.
  - intros e N.
    assert (V : verifyTurnstileOrSkip cfg net token (req_ip req) tr
                = (Throw e, (tr ++ [call])%list)).
    { rewrite verify_call by assumption. fold call. now rewrite N. }
    split; [exact V|].
    rewrite (post_steam_sync_run cfg net req profile token) by assumption.
    now rewrite V.
Qed.

Lemma turnstile_failure_answers_witness :
  let call := turnstile_call prod_cfg "tok" (req_ip example_post) in
  (forall resp,
     garbled call = Resolved resp ->
     parsed resp = None \/ absent (get (data_of resp) "success") ->
     verifyTurnstileOrSkip prod_cfg garbled "tok" (req_ip example_post) []
     = (Return (VObj [("success", VBool false);
                      ("error", VStr "Turnstile failed");
                      ("details", data_of resp)]),
        ([] ++ [call])%list)
     /\ post_steam_sync (rt := example_runtime) prod_cfg garbled
          example_post []
        = (Return {| res_status := 400;
                     res_json := VObj [("error", VStr "Turnstile failed");
                                       ("details", data_of resp)] |},
           ([] ++ [call])%list))
  /\ (forall e,
        garbled call = Rejected e ->
        verifyTurnstileOrSkip prod_cfg garbled "tok" (req_ip example_post) []
        = (Throw e, ([] ++ [call])%list)
        /\ post_steam_sync (rt := example_runtime) prod_cfg garbled
             example_post []
           = (Return {| res_status := 500;
                        res_json :=
                          VObj [("error",
                                 or_else (VStr (message e))
                                         (VStr "Server error"))] |},
              ([] ++ [call])%list)).
Proof.
  apply (turnstile_failure_answers (rt := example_runtime)
           prod_cfg garbled example_post [] example_id "tok");
    try reflexivity; discriminate.
Defined.

(** C5 as stated fails when the call itself errors: the verifier throws
    instead of returning success:false, and the endpoint answers 500, not
    400. *)
Lemma turnstile_call_error_counterexample :
  IS_PROD prod_cfg = true
  /\ token_of (rt := example_runtime) example_post = Return "tok"
  /\ run (verifyTurnstileOrSkip prod_cfg unreachable
            "tok" (req_ip example_post))
     = (Throw (Error "fetch failed"),
        [POST_form turnstile_url
           "secret=turnstile-secret&response=tok&remoteip=203.0.113.7"])
  /\ run (post_steam_sync (rt := example_runtime) prod_cfg unreachable
            example_post)
     = (Return {| res_status := 500;
                  res_json := VObj [("error", VStr "fetch failed")] |},
        [POST_form turnstile_url
           "secret=turnstile-secret&response=tok&remoteip=203.0.113.7"]).
Proof. repeat split. Qed.

(** C7: a POST whose profile field is absent, or is a string that is empty
    after trimming, is answered 400 with the error "Missing profile", for
    every configuration and every network, and the trace of outbound calls
    is left as it was: neither the verifier nor the resolver nor the
    fetcher has run. *)
Theorem post_steam_sync_missing_profile `{rt : Runtime}
  (cfg : config) (net : network) (req : http_request) (tr : list request) :
  (get (req_body req) "profile" = VUndefined \/
   exists s, get (req_body req) "profile" = VStr s /\ trim s = "") ->
  post_steam_sync cfg net req tr
  = (Return {| res_status := 400;
               res_json := VObj [("error", VStr "Missing profile")] |}, tr)
  /\ snd (post_steam_sync cfg net req tr) = tr.
Proof.
  intros H.
  assert (E : profile_of req = Return "").
  { unfold profile_of. destruct H as [-> | (s & -> & T)].
    - reflexivity.
    - rewrite trimmed_string. now rewrite T. }
  rewrite (post_missing_profile cfg net req tr E). split; reflexivity.
Qed.

Lemma post_steam_sync_missing_profile_witness :
  post_steam_sync (rt := example_runtime) prod_cfg_no_secret unreachable
    {| req_body := VObj [("profile", VStr "   ");
                         ("turnstileToken", VStr "tok")];
       req_ip := None |} []
  = (Return {| res_status := 400;
               res_json := VObj [("error", VStr "Missing profile")] |}, [])
  /\ snd (post_steam_sync (rt := example_runtime) prod_cfg_no_secret
            unreachable
            {| req_body := VObj [("profile", VStr "   ");
                                 ("turnstileToken", VStr "tok")];
               req_ip := None |} []) = [].
Proof.
  apply (post_steam_sync_missing_profile (rt := example_runtime)
           prod_cfg_no_secret unreachable
           {| req_body := VObj [("profile", VStr "   ");
                                ("turnstileToken", VStr "tok")];
              req_ip := None |} []).
  right. exists "   ". split; reflexivity.
Defined.

(* ================================================================== *)
(** ** Start-up and the missing secret *)
(* ================================================================== *)

(** C2, as amended: in production mode with the verification secret absent
    and the API credential present, the process starts and listens; the
    secret is checked by the verifier on each request.  Every POST whose
    profile is read as a non-empty string and whose token is read as a
    string is answered 500 with the message
    "Missing TURNSTILE_SECRET_KEY in production" before any outbound call;
    a POST whose profile or token cannot be converted to a string is
    answered 500 with the message of that conversion failure, a POST
    without profile and every GET are answered 400 as always; so no POST
    makes an outbound call or is answered 200, and verification is never
    skipped.  The only check at start-up is on the API credential: without
    it the process exits with code 1. *)
Theorem missing_secret_checked_per_request `{rt : Runtime}
  (e : environment) (net : network) (req : http_request) :
  env_NODE_ENV e = Some "production" ->
  configured (env_TURNSTILE_SECRET_KEY e) = false ->
  configured (env_STEAM_API_KEY e) = true ->
  start e = Listening (load e)
  /\ (forall p t,
        profile_of req = Return p -> p <> "" -> token_of req = Return t ->
        serve e net HTTP_POST req
        = Some (Return {| res_status := 500;
                          res_json :=
                            VObj [("error",
                                   VStr "Missing TURNSTILE_SECRET_KEY in production")] |},
                []))
  /\ (forall p,
        profile_of req = Return p -> p <> "" ->
        token_of req = Throw type_error ->
        serve e net HTTP_POST req
        = Some (Return {| res_status := 500;
                          res_json :=
                            VObj [("error",
                                   VStr "Cannot convert object to primitive value")] |},
                []))
  /\ (profile_of req = Throw type_error ->
      serve e net HTTP_POST req
      = Some (Return {| res_status := 500;
                        res_json :=
                          VObj [("error",
                                 VStr "Cannot convert object to primitive value")] |},
              []))
  /\ (profile_of req = Return "" ->
      serve e net HTTP_POST req = Some (Return missing_profile, []))
  /\ (exists r, serve e net HTTP_POST req = Some (Return r, [])
                /\ (res_status r = 400 \/ res_status r = 500))
  /\ serve e net HTTP_GET req = Some (Return missing_profile, [])
  /\ (forall e', configured (env_STEAM_API_KEY e') = false ->
                 start e' = Exited 1).
Proof.
  intros P S K.
  assert (St : start e = Listening (load e)).
  { unfold start, configured in *. simpl. now rewrite K. }
  assert (Pr : IS_PROD (load e) = true) by (simpl; now rewrite P).
  assert (A1 : forall p t,
             profile_of req = Return p -> p <> "" -> token_of req = Return t ->
             post_steam_sync (load e) net req []
             = (Return {| res_status := 500;
                          res_json :=
                            VObj [("error",
                                   VStr "Missing TURNSTILE_SECRET_KEY in production")] |},
                [])).
  { intros p t Hp N Ht.
    rewrite (post_steam_sync_run (load e) net req p t) by assumption.
    now rewrite verify_no_secret. }
  split; [exact St|]. unfold serve. rewrite St. unfold run, app.
  split; [|split; [|split; [|split; [|split; [|split]]]]].
  - intros p t Hp N Ht. now rewrite (A1 p t).
  - intros p Hp N Ht.
    now rewrite (post_token_throws (load e) net req p type_error).
  - intros Hp. now rewrite (post_profile_throws (load e) net req type_error).
  - intros E. now rewrite post_missing_profile.
  - destruct (request_cases req)
      as [Hp | [Hp | [(p & Hp & N & Ht) | (p & t & Hp & N & Ht)]]].
    + rewrite (post_profile_throws (load e) net req type_error) by assumption.
      eexists. split; [reflexivity|]. now right.
    + rewrite post_missing_profile by assumption.
      eexists. split; [reflexivity|]. now left.
    + rewrite (post_token_throws (load e) net req p type_error)
        by assumption.
      eexists. split; [reflexivity|]. now right.
    + rewrite (A1 p t) by assumption.
      eexists. split; [reflexivity|]. now right.
  - reflexivity.
  - intros e' K'. unfold start, configured in *. simpl. now rewrite K'.
Qed.

Lemma missing_secret_checked_per_request_witness :
  start prod_env_no_secret = Listening (load prod_env_no_secret)
  /\ (forall p t,
        profile_of (rt := example_runtime) example_post = Return p ->
        p <> "" ->
        token_of (rt := example_runtime) example_post = Return t ->
        serve (rt := example_runtime) prod_env_no_secret unreachable
          HTTP_POST example_post
        = Some (Return {| res_status := 500;
                          res_json :=
                            VObj [("error",
                                   VStr "Missing TURNSTILE_SECRET_KEY in production")] |},
                []))
  /\ (forall p,
        profile_of (rt := example_runtime) example_post = Return p ->
        p <> "" ->
        token_of (rt := example_runtime) example_post = Throw type_error ->
        serve (rt := example_runtime) prod_env_no_secret unreachable
          HTTP_POST example_post
        = Some (Return {| res_status := 500;
                          res_json :=
                            VObj [("error",
                                   VStr "Cannot convert object to primitive value")] |},
                []))
  /\ (profile_of (rt := example_runtime) example_post = Throw type_error ->
      serve (rt := example_runtime) prod_env_no_secret unreachable
        HTTP_POST example_post
      = Some (Return {| res_status := 500;
                        res_json :=
                          VObj [("error",
                                 VStr "Cannot convert object to primitive value")] |},
              []))
  /\ (profile_of (rt := example_runtime) example_post = Return "" ->
      serve (rt := example_runtime) prod_env_no_secret unreachable
        HTTP_POST example_post
      = Some (Return missing_profile, []))
  /\ (exists r,
        serve (rt := example_runtime) prod_env_no_secret unreachable
          HTTP_POST example_post = Some (Return r, [])
        /\ (res_status r = 400 \/ res_status r = 500))
  /\ serve (rt := example_runtime) prod_env_no_secret unreachable HTTP_GET
       example_post
     = Some (Return missing_profile, [])
  /\ (forall e', configured (env_STEAM_API_KEY e') = false ->
                 start e' = Exited 1).
Proof.
  apply (missing_secret_checked_per_request (rt := example_runtime)
           prod_env_no_secret unreachable example_post); reflexivity.
Defined.

(** C2 as stated fails: with the secret absent in production mode the
    process starts, and it serves requests; the secret is only looked at
    when a request reaches the verifier. *)
Lemma missing_secret_startup_counterexample :
  env_NODE_ENV prod_env_no_secret = Some "production"
  /\ env_TURNSTILE_SECRET_KEY prod_env_no_secret = None
  /\ start prod_env_no_secret = Listening prod_cfg_no_secret
  /\ serve (rt := example_runtime) prod_env_no_secret unreachable HTTP_GET
       example_post
     = Some (Return {| res_status := 400;
                       res_json := VObj [("error", VStr "Missing profile")] |},
             [])
  /\ serve (rt := example_runtime) prod_env_no_secret unreachable HTTP_POST
       {| req_body := VObj []; req_ip := None |}
     = Some (Return {| res_status := 400;
                       res_json := VObj [("error", VStr "Missing profile")] |},
             [])
  /\ serve (rt := example_runtime) prod_env_no_secret unreachable HTTP_POST
       example_post
     = Some (Return {| res_status := 500;
                       res_json :=
                         VObj [("error",
                                VStr "Missing TURNSTILE_SECRET_KEY in production")] |},
             [])
  /\ serve (rt := example_runtime) prod_env_no_secret unreachable HTTP_POST
       {| req_body := VObj [("profile", VStr "gabe");
                            ("turnstileToken", VObj [("toString", VNum (Int 1))])];
          req_ip := None |}
     = Some (Return {| res_status := 500;
                       res_json :=
                         VObj [("error",
                                VStr "Cannot convert object to primitive value")] |},
             []).
Proof. repeat split. Qed.

(* ================================================================== *)
(** ** The achievement fetcher *)
(* ================================================================== *)

Lemma getPlayerAchievements_throws `{rt : Runtime} cfg net steamid64 tr :
  ToString steamid64 = None ->
  getPlayerAchievements cfg net steamid64 tr = (Throw type_error, tr).
Proof.
  intros E. unfold getPlayerAchievements, bind, lift, String_of.
  now rewrite E.
Qed.

Lemma getPlayerAchievements_run `{rt : Runtime} cfg net steamid64 id tr :
  ToString steamid64 = Some id ->
  getPlayerAchievements cfg net steamid64 tr =
  match net (GET (stats_url cfg id)) with
  | Rejected e => (Throw e, (tr ++ [GET (stats_url cfg id)])%list)
  | Resolved res =>
      let ps := get (data_of res) "playerstats" in
      (if negb (ok res)
       then Throw (Error ("Steam API error (HTTP " ++
                          NumberToString (Int (status res)) ++ ")"))
       else if negb (truthy ps)
       then Throw (Error "Unexpected Steam response (missing playerstats).")
       else if truthy (get ps "error")
       then match ToString (get ps "error") with
            | Some msg => Throw (Error msg)
            | None => Throw type_error
            end
       else Return (if isArray (get ps "achievements")
                    then array_items (get ps "achievements") else []),
       (tr ++ [GET (stats_url cfg id)])%list)
  end.
Proof.
  intros E. unfold getPlayerAchievements, bind, lift, String_of, fetch.
  rewrite E. destruct (net _) as [e|res]; [reflexivity|]. simpl.
  destruct (negb (ok res)); [reflexivity|].
  destruct (negb (truthy _)); [reflexivity|].
  destruct (truthy (get _ "error")); [|reflexivity].
  now destruct (ToString (get _ "error")).
Qed.



(* ================================================================== *)
(** ** Error messages and the credential *)
(* ================================================================== *)

Lemma prefix_app v b : String.prefix v (v ++ b) = true.
Proof.
  induction v as [|c v IH]; simpl.
  - now destruct b.
  - destruct (ascii_dec c c) as [_|N]; [exact IH | now destruct N].
Qed.

Lemma includes_here v b : includes v (v ++ b) = true.
Proof.
  pose proof (prefix_app v b) as P.
  destruct (v ++ b); cbn [includes]; now rewrite P.
Qed.

Lemma includes_later t a : forall s,
  includes t s = true -> includes t (a ++ s) = true.
Proof.
  induction a as [|c a IH]; intros s I; [exact I|].
  change (String c a ++ s) with (String c (a ++ s)). cbn [includes].
  destruct (String.prefix t (String c (a ++ s))); [reflexivity|].
  now apply IH.
Qed.

Lemma includes_middle a v b : includes v (a ++ v ++ b) = true.
Proof. apply includes_later, includes_here. Qed.

Lemma prefix_before_sep p c b : forall a k,
  all_chars p k = true -> p c = false ->
  String.prefix k (a ++ String c b) = true -> String.prefix k a = true.
Proof.
  induction a as [|y a IH]; intros [|x k] A C P; simpl in *;
    try reflexivity.
  - destruct (ascii_dec x c) as [->|]; [|discriminate].
    apply andb_true_iff in A. destruct A as [A _]. congruence.
  - destruct (ascii_dec x y); [|discriminate].
    apply andb_true_iff in A. destruct A as [_ A]. now apply (IH k).
Qed.

Lemma includes_prefix k s : String.prefix k s = true -> includes k s = true.
Proof. intros P. destruct s; cbn [includes]; now rewrite P. Qed.

Lemma includes_cons k c s : includes k s = true -> includes k (String c s) = true.
Proof. intros I. cbn [includes]. now destruct (String.prefix k (String c s)). Qed.

Lemma includes_cons_inv k c s :
  includes k (String c s) = true ->
  String.prefix k (String c s) = true \/ includes k s = true.
Proof.
  cbn [includes]. destruct (String.prefix k (String c s)); auto.
Qed.

Lemma includes_empty k : includes k "" = true -> k = "".
Proof. destruct k; [reflexivity | discriminate]. Qed.

(** A string of [p]-characters found in [a ++ c ++ b], with [c] not a
    [p]-character, lies in [a] or in [b]. *)
Lemma includes_sep p c b k : forall a,
  all_chars p k = true -> p c = false ->
  includes k (a ++ String c b) = true ->
  includes k a = true \/ includes k b = true.
Proof.
  induction a as [|y a IH]; intros A C I.
  - change ("" ++ String c b) with (String c b) in I.
    apply includes_cons_inv in I. destruct I as [P|I]; [|now right].
    left. apply includes_prefix.
    now apply (prefix_before_sep p c b "" k).
  - change (String y a ++ String c b) with (String y (a ++ String c b)) in I.
    apply includes_cons_inv in I. destruct I as [P|I].
    + left. apply includes_prefix.
      now apply (prefix_before_sep p c b (String y a) k).
    + destruct (IH A C I) as [L|R]; [left | now right].
      now apply includes_cons.
Qed.

Lemma prefix_take_while p : forall k s,
  all_chars p k = true -> String.prefix k s = true ->
  (String.length k <= String.length (take_while p s))%nat.
Proof.
  induction k as [|x k IH]; intros [|y s] A P; simpl in *;
    try lia; try discriminate.
  destruct (ascii_dec x y) as [<-|]; [|discriminate].
  apply andb_true_iff in A. destruct A as [X A]. rewrite X. simpl.
  specialize (IH s A P). lia.
Qed.

Lemma includes_max_run p k : forall s,
  all_chars p k = true -> includes k s = true ->
  (String.length k <= max_run p s)%nat.
Proof.
  induction s as [|c s IH]; intros A I.
  - apply includes_empty in I. now subst.
  - apply includes_cons_inv in I. cbn [max_run]. destruct I as [P|I].
    + pose proof (prefix_take_while p _ _ A P). lia.
    + specialize (IH A I). lia.
Qed.

Lemma includes_length k : forall s,
  includes k s = true -> (String.length k <= String.length s)%nat.
Proof.
  intros s I.
  pose proof (includes_max_run (fun _ => true) k s) as M.
  assert (A : all_chars (fun _ => true) k = true)
    by (clear; induction k; simpl; auto).
  specialize (M A I).
  assert (B : forall t, (max_run (fun _ => true) t <= String.length t)%nat).
  { clear. induction t as [|c t IH]; cbn [max_run]; [lia|].
    assert (T : forall u, take_while (fun _ => true) u = u)
      by (induction u; simpl; congruence).
    rewrite T. apply Nat.max_lub; [lia | simpl; lia]. }
  specialize (B s). lia.
Qed.

Lemma status_digits `{rt : Runtime} z :
  0 <= z < 1000 -> (String.length (NumberToString (Int z)) <= 3)%nat.
Proof.
  intros R.
  assert (C : forallb
                (fun n => Nat.leb (String.length
                                     (NumberToString (Int (Z.of_nat n)))) 3)
                (seq 0 1000) = true) by (vm_compute; reflexivity).
  rewrite forallb_forall in C.
  specialize (C (Z.to_nat z)). rewrite Z2Nat.id in C by lia.
  apply Nat.leb_le, C, in_seq. lia.
Qed.

(** A hexadecimal credential inside [a ++ v ++ b], when [a] ends and [b]
    starts with characters that are not hexadecimal and neither holds four
    hexadecimal digits in a row, lies inside [v]. *)
Lemma hex_key_in_middle key a c v d b :
  hex_key key -> is_hex c = false -> is_hex d = false ->
  (max_run is_hex a < 4)%nat -> (max_run is_hex b < 4)%nat ->
  includes key (a ++ String c (v ++ String d b)) = true ->
  includes key v = true.
Proof.
  intros [A L] C D Ma Mb I.
  destruct (includes_sep is_hex c _ key a A C I) as [Ia|I'].
  - pose proof (includes_max_run is_hex key a A Ia). lia.
  - destruct (includes_sep is_hex d _ key v A D I') as [Iv|Ib];
      [exact Iv|].
    pose proof (includes_max_run is_hex key b A Ib). lia.
Qed.

Lemma resolveVanity_run `{rt : Runtime} cfg net vanity tr :
  resolveVanity cfg net vanity tr =
  match net (GET (vanity_url cfg vanity)) with
  | Rejected e => (Throw e, (tr ++ [GET (vanity_url cfg vanity)])%list)
  | Resolved res =>
      let steamid := get (get (data_of res) "response") "steamid" in
      let success := get (get (data_of res) "response") "success" in
      (if negb (ok res)
       then Throw (Error ("ResolveVanityURL failed (HTTP " ++
                          NumberToString (Int (status res)) ++ ")"))
       else if is_not_one success || negb (truthy steamid)
       then Throw (Error ("Could not resolve that Steam profile. (vanity=" ++
                          vanity ++ ")"))
       else Return steamid,
       (tr ++ [GET (vanity_url cfg vanity)])%list)
  end.
Proof.
  unfold resolveVanity, bind, fetch.
  destruct (net _) as [e|res]; [reflexivity|]. simpl.
  destruct (negb (ok res)); [reflexivity|].
  now destruct (_ || _).
Qed.

(** C8, as amended: vanity resolution raises the error of the call when the
    call fails, "ResolveVanityURL failed (HTTP <status>)" when the status
    is not a success, and "Could not resolve that Steam profile.
    (vanity=<vanity>)" when the answer has a success status but no success
    flag equal to 1 or no id; only the last includes the vanity string.
    The outcome of vanity resolution and of the achievement fetch, error
    messages included, is determined by the outcome of the call alone: for
    the same outcome, configurations with different API credentials give
    the same result.  An error of the call itself is passed on unchanged,
    so its message holds the credential whenever the call's own error
    does.  For a credential of four or more hexadecimal digits and an
    answer with a status below 1000, an error message built by vanity
    resolution contains the credential only if the vanity string does, and
    one built by the fetch only if the error text sent by the stats service
    does; the message of the error raised for an id that cannot be
    converted to a string never does.  A body that is not JSON under a
    success status yields "Could not resolve that Steam profile.
    (vanity=<vanity>)" from vanity resolution and "Unexpected Steam
    response (missing playerstats)." from the fetch, and an error thrown by
    the orchestrator is answered 500 with its message. *)
Theorem error_messages_leave_out_credential `{rt : Runtime}
  (cfg : config) (net : network) (vanity : string) (tr : list request) :
  (forall res,
     net (GET (vanity_url cfg vanity)) = Resolved res -> ok res = true ->
     is_not_one (get (get (data_of res) "response") "success")
       || negb (truthy (get (get (data_of res) "response") "steamid")) = true ->
     fst (resolveVanity cfg net vanity tr)
     = Throw (Error ("Could not resolve that Steam profile. (vanity=" ++
                     vanity ++ ")"))
     /\ includes vanity ("Could not resolve that Steam profile. (vanity=" ++
                         vanity ++ ")") = true)
  /\ (forall res,
        net (GET (vanity_url cfg vanity)) = Resolved res -> ok res = false ->
        fst (resolveVanity cfg net vanity tr)
        = Throw (Error ("ResolveVanityURL failed (HTTP " ++
                        NumberToString (Int (status res)) ++ ")")))
  /\ (forall e,
        net (GET (vanity_url cfg vanity)) = Rejected e ->
        fst (resolveVanity cfg net vanity tr) = Throw e)
  /\ (forall steamid64 id e,
        ToString steamid64 = Some id ->
        net (GET (stats_url cfg id)) = Rejected e ->
        fst (getPlayerAchievements cfg net steamid64 tr) = Throw e)
  /\ (forall cfg' net',
        net' (GET (vanity_url cfg' vanity)) = net (GET (vanity_url cfg vanity)) ->
        fst (resolveVanity cfg' net' vanity tr)
        = fst (resolveVanity cfg net vanity tr))
  /\ (forall cfg' net' steamid64,
        (forall id, ToString steamid64 = Some id ->
                    net' (GET (stats_url cfg' id))
                    = net (GET (stats_url cfg id))) ->
        fst (getPlayerAchievements cfg' net' steamid64 tr)
        = fst (getPlayerAchievements cfg net steamid64 tr))
  /\ (forall key e,
        STEAM_API_KEY cfg = Some key -> hex_key key ->
        (forall res, net (GET (vanity_url cfg vanity)) = Resolved res ->
                     0 <= status res < 1000) ->
        fst (resolveVanity cfg net vanity tr) = Throw e ->
        includes key (message e) = true ->
        includes key vanity = true
        \/ net (GET (vanity_url cfg vanity)) = Rejected e)
  /\ (forall key steamid64 e,
        STEAM_API_KEY cfg = Some key -> hex_key key ->
        (forall id res, ToString steamid64 = Some id ->
                        net (GET (stats_url cfg id)) = Resolved res ->
                        0 <= status res < 1000) ->
        fst (getPlayerAchievements cfg net steamid64 tr) = Throw e ->
        includes key (message e) = true ->
        exists id,
          ToString steamid64 = Some id
          /\ (net (GET (stats_url cfg id)) = Rejected e
              \/ exists res msg,
                   net (GET (stats_url cfg id)) = Resolved res
                   /\ ToString (get (get (data_of res) "playerstats") "error")
                      = Some msg
                   /\ includes key msg = true))
  /\ (forall res,
        net (GET (vanity_url cfg vanity)) = Resolved res -> ok res = true ->
        parsed res = None ->
        fst (resolveVanity cfg net vanity tr)
        = Throw (Error ("Could not resolve that Steam profile. (vanity=" ++
                        vanity ++ ")")))
  /\ (forall steamid64 id res,
        ToString steamid64 = Some id ->
        net (GET (stats_url cfg id)) = Resolved res -> ok res = true ->
        parsed res = None ->
        fst (getPlayerAchievements cfg net steamid64 tr)
        = Throw (Error "Unexpected Steam response (missing playerstats)."))
  /\ (forall req p t ts e tr1 tr2,
        profile_of req = Return p -> p <> "" -> token_of req = Return t ->
        verifyTurnstileOrSkip cfg net t (req_ip req) tr = (Return ts, tr1) ->
        truthy (get ts "success") = true ->
        handleSync cfg net (VStr p) (client_of req) tr1 = (Throw e, tr2) ->
        post_steam_sync cfg net req tr
        = (Return {| res_status := 500;
                     res_json :=
                       VObj [("error", or_else (VStr (message e))
                                               (VStr "Server error"))] |},
           tr2)).
Proof.
  repeat apply conj.
  - intros res N O F. rewrite resolveVanity_run, N. cbv zeta.
    rewrite O, F. simpl. split; [reflexivity|].
    apply (includes_middle "Could not resolve that Steam profile. (vanity=").
  - intros res N O. rewrite resolveVanity_run, N. cbv zeta. now rewrite O.
  - intros e N. now rewrite resolveVanity_run, N.
  - intros v id e Id N.
    now rewrite (getPlayerAchievements_run cfg net v id tr Id), N.
  - intros cfg' net' E. rewrite !resolveVanity_run, E.
    now destruct (net _).
  - intros cfg' net' v E. destruct (ToString v) as [id|] eqn:Id.
    + rewrite (getPlayerAchievements_run cfg' net' v id tr Id),
        (getPlayerAchievements_run cfg net v id tr Id), (E id eq_refl).
      now destruct (net _).
    + now rewrite !getPlayerAchievements_throws.
  - intros key e _ K R. rewrite resolveVanity_run.
    destruct (net (GET (vanity_url cfg vanity))) as [e'|res] eqn:N.
    { intros [= <-] _. now right. }
    specialize (R res eq_refl). cbv zeta.
    cbn [fst]. destruct (negb (ok res)).
    + intros [= <-] I. exfalso. cbn [message] in I.
      apply (hex_key_in_middle key "ResolveVanityURL failed (HTTP" " "
               (NumberToString (Int (status res))) ")" "" K) in I;
        try reflexivity; try (vm_compute; lia).
      apply includes_length in I. pose proof (status_digits _ R).
      destruct K as [_ L]. lia.
    + destruct (_ || _); [|discriminate].
      intros [= <-] I. cbn [message] in I. left.
      apply (hex_key_in_middle key
               "Could not resolve that Steam profile. (vanity" "="
               vanity ")" "" K) in I;
        try reflexivity; try (vm_compute; lia). exact I.
  - intros key v e _ K R. destruct (ToString v) as [id|] eqn:Id.
    2:{ rewrite getPlayerAchievements_throws by assumption.
        intros [= <-] I. exfalso. destruct K as [A L].
        apply (includes_max_run is_hex key _ A) in I.
        change (max_run is_hex _) with 2%nat in I. lia. }
    rewrite (getPlayerAchievements_run cfg net v id tr Id).
    destruct (net (GET (stats_url cfg id))) as [e'|res] eqn:N.
    { intros [= <-] _. exists id. split; [reflexivity|]. now left. }
    specialize (R id res eq_refl N).
    cbv zeta. cbn [fst]. destruct (negb (ok res)).
    + intros [= <-] I. exfalso. cbn [message] in I.
      apply (hex_key_in_middle key "Steam API error (HTTP" " "
               (NumberToString (Int (status res))) ")" "" K) in I;
        try reflexivity; try (vm_compute; lia).
      apply includes_length in I. pose proof (status_digits _ R).
      destruct K as [_ L]. lia.
    + destruct (negb (truthy _)).
      * intros [= <-] I. exfalso. cbn [message] in I. destruct K as [A L].
        apply (includes_max_run is_hex key _ A) in I.
        change (max_run is_hex _) with 2%nat in I. lia.
      * destruct (truthy (get _ "error")); [|discriminate].
        destruct (ToString (get _ "error")) as [msg|] eqn:Em.
        -- intros [= <-] I. exists id. split; [reflexivity|]. right.
           exists res, msg. now repeat split.
        -- intros [= <-] I. exfalso. destruct K as [A L].
           apply (includes_max_run is_hex key _ A) in I.
           change (max_run is_hex _) with 2%nat in I. lia.
  - intros res N O P. rewrite resolveVanity_run, N. cbv zeta.
    unfold data_of. now rewrite O, P.
  - intros v id res Id N O P.
    rewrite (getPlayerAchievements_run cfg net v id tr Id), N. cbv zeta.
    unfold data_of. now rewrite O, P.
  - intros req p t ts e tr1 tr2 Hp NP Ht V T H.
    rewrite (post_steam_sync_run cfg net req p t) by assumption.
    now rewrite V, T, H.
Qed.

(** C8 as stated fails: the error raised for a status that is not a
    success carries the status and not the vanity string; the error raised
    for a name that does not resolve repeats the caller's string, whatever
    it is, be it the text of the credential; and when the call itself
    fails with an error that quotes its URL, that error is passed on, and
    the endpoint answers 500 with a message that holds the credential. *)
Lemma resolveVanity_http_error_counterexample :
  run (resolveVanity (rt := example_runtime) dev_cfg
         (fun _ => json 500 VNull) "gabe")
  = (Throw (Error "ResolveVanityURL failed (HTTP 500)"),
     [GET (vanity_url dev_cfg "gabe")])
  /\ includes "gabe" "ResolveVanityURL failed (HTTP 500)" = false
  /\ STEAM_API_KEY dev_cfg = Some example_key
  /\ run (resolveVanity (rt := example_runtime) dev_cfg (always VNull)
            example_key)
     = (Throw (Error ("Could not resolve that Steam profile. (vanity=" ++
                      example_key ++ ")")),
        [GET (vanity_url dev_cfg example_key)])
  /\ includes example_key
       ("Could not resolve that Steam profile. (vanity=" ++
        example_key ++ ")") = true
  /\ (exists e,
        run (resolveVanity (rt := example_runtime) dev_cfg quoting "gabe")
        = (Throw e, [GET (vanity_url dev_cfg "gabe")])
        /\ includes "gabe" "gabe" = true
        /\ includes example_key (message e) = true)
  /\ (exists e,
        run (getPlayerAchievements (rt := example_runtime) dev_cfg quoting
               (VStr example_id))
        = (Throw e, [GET (stats_url dev_cfg example_id)])
        /\ includes example_key (message e) = true)
  /\ (exists msg,
        run (post_steam_sync (rt := example_runtime) dev_cfg quoting
               example_post)
        = (Return {| res_status := 500;
                     res_json := VObj [("error", VStr msg)] |},
           [GET (stats_url dev_cfg example_id)])
        /\ includes example_key msg = true).
Proof.
  repeat split; eexists; repeat split.
Qed.

Lemma error_messages_leave_out_credential_witness :
  (fst (resolveVanity (rt := example_runtime) dev_cfg garbled "gabe" [])
   = Throw (Error ("Could not resolve that Steam profile. (vanity=" ++
                   "gabe" ++ ")"))
   /\ includes "gabe" ("Could not resolve that Steam profile. (vanity=" ++
                       "gabe" ++ ")") = true)
  /\ fst (getPlayerAchievements (rt := example_runtime) dev_cfg garbled
            (VStr example_id) [])
     = Throw (Error "Unexpected Steam response (missing playerstats).")
  /\ includes example_key
       "Could not resolve that Steam profile. (vanity=gabe)" = false
  /\ includes example_key
       "Unexpected Steam response (missing playerstats)." = false.
Proof.
  pose proof (error_messages_leave_out_credential (rt := example_runtime)
                dev_cfg garbled "gabe" [])
    as (A & _ & _ & _ & _ & _ & _ & _ & _ & G & _).
  split; [|split; [|split]].
  - apply (A {| status := 200; parsed := None |}); reflexivity.
  - apply (G (VStr example_id) example_id {| status := 200; parsed := None |});
      reflexivity.
  - reflexivity.
  - reflexivity.
Defined.

(* ================================================================== *)
(** ** Cleaning the profile string *)
(* ================================================================== *)

Lemma trimStart_app_ws a : forall s,
  all_chars is_ws a = true -> trimStart (a ++ s) = trimStart s.
Proof.
  induction a as [|c a IH]; simpl; intros s A; [reflexivity|].
  apply andb_true_iff in A. destruct A as [C A]. rewrite C. now apply IH.
Qed.

Lemma trimStart_empty_iff s :
  trimStart s = "" <-> all_chars is_ws s = true.
Proof.
  induction s as [|c s IH]; simpl; [split; reflexivity|].
  destruct (is_ws c); simpl; [exact IH|]. split; discriminate.
Qed.

Lemma trimEnd_empty_iff s :
  trimEnd s = "" <-> all_chars is_ws s = true.
Proof.
  induction s as [|c s IH]; simpl; [split; reflexivity|].
  destruct (is_ws c); simpl.
  - destruct (String.eqb_spec (trimEnd s) "") as [E|N].
    + split; [intros _; now apply IH | reflexivity].
    + split; [discriminate | intros A; apply IH in A; contradiction].
  - split; discriminate.
Qed.

Lemma trimEnd_app_ws b : forall s,
  all_chars is_ws b = true -> trimEnd (s ++ b) = trimEnd s.
Proof.
  intros s B. induction s as [|c s IH]; simpl.
  - now apply trimEnd_empty_iff.
  - now rewrite IH.
Qed.

Lemma trimEnd_idempotent s : trimEnd (trimEnd s) = trimEnd s.
Proof.
  induction s as [|c s IH]; simpl; [reflexivity|].
  destruct (is_ws c && String.eqb (trimEnd s) "") eqn:E; [reflexivity|].
  simpl. now rewrite IH, E.
Qed.

Lemma trimStart_fixed s :
  match s with String c _ => is_ws c = false | EmptyString => True end ->
  trimStart s = s.
Proof. destruct s as [|c s]; simpl; [reflexivity|]. now intros ->. Qed.

Lemma trimStart_head s :
  match trimStart s with
  | String c _ => is_ws c = false
  | EmptyString => True
  end.
Proof.
  induction s as [|c s IH]; simpl; [exact I|].
  destruct (is_ws c) eqn:C; [exact IH | exact C].
Qed.

Lemma trimEnd_head s :
  match s with String c _ => is_ws c = false | EmptyString => True end ->
  match trimEnd s with
  | String c _ => is_ws c = false
  | EmptyString => True
  end.
Proof.
  destruct s as [|c s]; simpl; [auto|]. intros C. now rewrite C.
Qed.

Lemma trim_empty_iff s : trim s = "" <-> all_chars is_ws s = true.
Proof.
  unfold trim.
  transitivity (trimStart s = ""); [|apply trimStart_empty_iff].
  rewrite trimEnd_empty_iff.
  pose proof (trimStart_head s) as H.
  destruct (trimStart s) as [|c r]; simpl; [split; reflexivity|].
  rewrite H. simpl. split; discriminate.
Qed.

Lemma trim_idempotent s : trim (trim s) = trim s.
Proof.
  unfold trim.
  rewrite (trimStart_fixed (trimEnd (trimStart s))).
  - apply trimEnd_idempotent.
  - apply trimEnd_head, trimStart_head.
Qed.

Lemma trim_surrounded a s b :
  all_chars is_ws a = true -> all_chars is_ws b = true ->
  trim (a ++ s ++ b) = trim s.
Proof.
  intros A B. unfold trim. rewrite (trimStart_app_ws a _ A).
  induction s as [|c s IH]; simpl.
  - apply trimStart_empty_iff in B. now rewrite B.
  - destruct (is_ws c); [exact IH|].
    simpl. now rewrite (trimEnd_app_ws b s B).
Qed.

(** X1: white space around a profile string never changes how it is
    resolved: the input padded on both sides with white space gives the
    same result and the same outbound calls as the input itself; and
    cleaning a cleaned string changes nothing, so the second cleaning done
    by the resolver on the endpoint's trimmed profile is harmless. *)
Theorem resolveSteamId64_ignores_padding `{rt : Runtime}
  (cfg : config) (net : network) (a s b : string) (tr : list request) :
  all_chars is_ws a = true -> all_chars is_ws b = true ->
  resolveSteamId64 cfg net (VStr (a ++ s ++ b)) tr
  = resolveSteamId64 cfg net (VStr s) tr
  /\ cleanProfileUrl (VStr s) = Return (trim s)
  /\ cleanProfileUrl (VStr (trim s)) = cleanProfileUrl (VStr s).
Proof.
  intros A B. split; [|split].
  - rewrite (resolveSteamId64_cleaned cfg net (VStr (a ++ s ++ b))
               (trim s) tr)
      by (rewrite cleanProfileUrl_string; now rewrite trim_surrounded).
    now rewrite (resolveSteamId64_cleaned cfg net (VStr s) (trim s) tr)
      by apply cleanProfileUrl_string.
  - apply cleanProfileUrl_string.
  - rewrite !cleanProfileUrl_string. now rewrite trim_idempotent.
Qed.

Lemma resolveSteamId64_ignores_padding_witness :
  resolveSteamId64 (rt := example_runtime) dev_cfg (always VNull)
    (VStr ("  " ++ "https://steamcommunity.com/id/gabe" ++ " ")) []
  = resolveSteamId64 (rt := example_runtime) dev_cfg (always VNull)
      (VStr "https://steamcommunity.com/id/gabe") []
  /\ cleanProfileUrl (rt := example_runtime)
       (VStr "https://steamcommunity.com/id/gabe")
     = Return (trim "https://steamcommunity.com/id/gabe")
  /\ cleanProfileUrl (rt := example_runtime)
       (VStr (trim "https://steamcommunity.com/id/gabe"))
     = cleanProfileUrl (rt := example_runtime)
         (VStr "https://steamcommunity.com/id/gabe").
Proof.
  apply (resolveSteamId64_ignores_padding (rt := example_runtime)
           dev_cfg (always VNull)
           "  " "https://steamcommunity.com/id/gabe" " " []);
    reflexivity.
Defined.

(** X2: the endpoint answers 400 "Missing profile" exactly when the
    cleaned profile is empty.  For a profile that is a string this is
    exactly when every character of it is white space; it is also the case
    for every falsy profile value ([null], [false], [0], absent). *)
Theorem post_steam_sync_missing_profile_iff `{rt : Runtime}
  (cfg : config) (net : network) (req : http_request) (tr : list request) :
  (fst (post_steam_sync cfg net req tr) = Return missing_profile
   <-> profile_of req = Return "")
  /\ (forall s, get (req_body req) "profile" = VStr s ->
        (fst (post_steam_sync cfg net req tr) = Return missing_profile
         <-> all_chars is_ws s = true))
  /\ (truthy (get (req_body req) "profile") = false ->
      post_steam_sync cfg net req tr = (Return missing_profile, tr)).
Proof.
  assert (Iff : fst (post_steam_sync cfg net req tr) = Return missing_profile
                <-> profile_of req = Return "").
  { split.
    - intros E.
      destruct (request_cases req)
        as [Hp | [Hp | [(p & Hp & N & Ht) | (p & t & Hp & N & Ht)]]].
      + rewrite (post_profile_throws cfg net req type_error) in E
          by assumption. discriminate E.
      + exact Hp.
      + rewrite (post_token_throws cfg net req p type_error) in E
          by assumption. discriminate E.
      + exfalso.
        rewrite (post_steam_sync_run cfg net req p t) in E by assumption.
        destruct (verifyTurnstileOrSkip _ _ _ _ _) as [[ts|e] tr1];
          [|discriminate E].
        destruct (negb (truthy (get ts "success"))); [discriminate E|].
        destruct (handleSync _ _ _ _ _) as [[out|e] tr2]; discriminate E.
    - intros E. now rewrite post_missing_profile. }
  split; [exact Iff|]. split.
  - intros s E. rewrite Iff. unfold profile_of. rewrite E.
    rewrite trimmed_string. split.
    + intros [= T]. now apply trim_empty_iff.
    + intros T. apply trim_empty_iff in T. now rewrite T.
  - intros F. apply post_missing_profile. unfold profile_of, trimmed, or_else.
    now rewrite F.
Qed.

Lemma post_steam_sync_missing_profile_iff_witness :
  post_steam_sync (rt := example_runtime) prod_cfg unreachable
    {| req_body := VObj [("profile", VNum (Int 0))]; req_ip := None |} []
  = (Return missing_profile, []).
Proof.
  apply (post_steam_sync_missing_profile_iff (rt := example_runtime)
           prod_cfg unreachable
           {| req_body := VObj [("profile", VNum (Int 0))];
              req_ip := None |} []).
  reflexivity.
Defined.
(* ================================================================== *)
(** ** The outbound URLs and the form *)
(* ================================================================== *)

Lemma count_char_app c a : forall b,
  count_char c (a ++ b) = (count_char c a + count_char c b)%nat.
Proof.
  induction a as [|d a IH]; simpl; intros b; [reflexivity|].
  rewrite IH. lia.
Qed.

Lemma all_chars_app p a : forall b,
  all_chars p (a ++ b) = all_chars p a && all_chars p b.
Proof.
  induction a as [|d a IH]; simpl; intros b; [reflexivity|].
  now rewrite IH, andb_assoc.
Qed.

Lemma all_chars_weaken (p q : ascii -> bool) s :
  (forall c, p c = true -> q c = true) ->
  all_chars p s = true -> all_chars q s = true.
Proof.
  intros W. induction s as [|c s IH]; simpl; [reflexivity|].
  intros A. apply andb_true_iff in A. destruct A as [C A].
  now rewrite (W _ C), IH.
Qed.

Lemma count_char_none p c s :
  all_chars p s = true -> p c = false -> count_char c s = O.
Proof.
  intros A C. induction s as [|d s IH]; simpl; [reflexivity|].
  simpl in A. apply andb_true_iff in A. destruct A as [D A].
  destruct (Ascii.eqb_spec c d) as [->|_]; [congruence|]. now rewrite IH.
Qed.

Lemma pct_utf8_safe c : all_chars uri_safe (pct_utf8 c) = true.
Proof. destruct c as [[] [] [] [] [] [] [] []]; reflexivity. Qed.

Lemma pct_utf8_form_safe c : all_chars form_safe (pct_utf8 c) = true.
Proof. destruct c as [[] [] [] [] [] [] [] []]; reflexivity. Qed.

Lemma encodeURIComponent_safe s :
  all_chars uri_safe (encodeURIComponent s) = true.
Proof.
  induction s as [|c s IH]; simpl; [reflexivity|].
  rewrite all_chars_app, IH, andb_true_r.
  destruct (uri_unreserved c) eqn:U; [|apply pct_utf8_safe].
  simpl. unfold uri_safe. now rewrite U.
Qed.

Lemma formEncode_safe s : all_chars form_safe (formEncode s) = true.
Proof.
  induction s as [|c s IH]; simpl; [reflexivity|].
  rewrite all_chars_app, IH, andb_true_r.
  destruct (form_unreserved c) eqn:U.
  - simpl. unfold form_safe. now rewrite U.
  - destruct (Ascii.eqb c " "); [reflexivity | apply pct_utf8_form_safe].
Qed.

Lemma count_in_encoded c s :
  uri_safe c = false -> count_char c (encodeURIComponent s) = O.
Proof. apply count_char_none, encodeURIComponent_safe. Qed.

Lemma count_in_form c s :
  form_safe c = false -> count_char c (formEncode s) = O.
Proof. apply count_char_none, formEncode_safe. Qed.

(** X3: whatever the credential, the vanity string and the resolved id
    are, the two URLs keep their shape: the vanity URL has one [?], one
    [&], two [=] and no [#]; the stats URL has one [?], two [&], three [=]
    and no [#].  A profile string cannot add or cut a query parameter. *)
Theorem outbound_urls_keep_their_parameters
  (cfg : config) (vanity : string) (steamid64 : string) :
  (count_char "?" (vanity_url cfg vanity) = 1
   /\ count_char "&" (vanity_url cfg vanity) = 1
   /\ count_char "=" (vanity_url cfg vanity) = 2
   /\ count_char "#" (vanity_url cfg vanity) = 0)%nat
  /\ (count_char "?" (stats_url cfg steamid64) = 1
      /\ count_char "&" (stats_url cfg steamid64) = 2
      /\ count_char "=" (stats_url cfg steamid64) = 3
      /\ count_char "#" (stats_url cfg steamid64) = 0)%nat.
Proof.
  unfold vanity_url, stats_url.
  repeat split; rewrite !count_char_app, !count_in_encoded by reflexivity;
    reflexivity.
Qed.

(** X4: whatever the secret, the token and the caller's address are, the
    form sent to the challenge service has exactly its two fields, or three
    when the address is known and non-empty: one [=] per field and one [&]
    between fields.  A token cannot add or override a field. *)
Theorem turnstile_form_keeps_its_fields
  (secret token : string) (remoteip : option string) :
  let extra := if truthy (env_value remoteip) then 1%nat else 0%nat in
  count_char "&" (turnstile_form secret token remoteip) = (1 + extra)%nat
  /\ count_char "=" (turnstile_form secret token remoteip) = (2 + extra)%nat.
Proof.
  unfold turnstile_form.
  split; rewrite !count_char_app, !count_in_form by reflexivity;
    destruct (truthy (env_value remoteip)); simpl;
    rewrite ?count_in_form by reflexivity; reflexivity.
Qed.

Lemma uri_head_encoded c x :
  uri_head ((if uri_unreserved c then String c "" else pct_utf8 c) ++ x)
  = Some (c, x).
Proof. destruct c as [[] [] [] [] [] [] [] []]; reflexivity. Qed.

Lemma encodeURIComponent_injective : forall s t,
  encodeURIComponent s = encodeURIComponent t -> s = t.
Proof.
  induction s as [|c s IH]; intros [|d t] E; simpl in E.
  - reflexivity.
  - apply (f_equal uri_head) in E. rewrite uri_head_encoded in E.
    discriminate E.
  - apply (f_equal uri_head) in E. rewrite uri_head_encoded in E.
    discriminate E.
  - apply (f_equal uri_head) in E. rewrite !uri_head_encoded in E.
    injection E as -> E. now rewrite (IH _ E).
Qed.

Lemma append_cancel_l a : forall x y : string, a ++ x = a ++ y -> x = y.
Proof.
  induction a as [|c a IH]; simpl; intros x y E; [exact E|].
  injection E as E. now apply IH.
Qed.

Lemma append_sep_cancel p c r r' : forall x y,
  all_chars p x = true -> all_chars p y = true -> p c = false ->
  x ++ String c r = y ++ String c r' -> x = y.
Proof.
  induction x as [|a x IH]; intros [|b y] X Y C E; simpl in *.
  - reflexivity.
  - injection E as <- _. apply andb_true_iff in Y. destruct Y. congruence.
  - injection E as -> _. apply andb_true_iff in X. destruct X. congruence.
  - injection E as -> E.
    apply andb_true_iff in X. apply andb_true_iff in Y.
    destruct X as [_ X], Y as [_ Y]. now rewrite (IH y X Y C E).
Qed.

(** X5: the encoding of URL components loses nothing: two strings with the
    same encoding are equal.  Hence two vanity names give the same request
    URL only when they are the same name, and two resolved ids give the
    same stats URL only when they print the same. *)
Theorem outbound_urls_tell_inputs_apart
  (cfg : config) :
  (forall s t, encodeURIComponent s = encodeURIComponent t -> s = t)
  /\ (forall v v', vanity_url cfg v = vanity_url cfg v' -> v = v')
  /\ (forall i i', stats_url cfg i = stats_url cfg i' -> i = i').
Proof.
  split; [exact encodeURIComponent_injective|]. split.
  - intros v v' E. unfold vanity_url in E.
    do 4 apply append_cancel_l in E.
    now apply encodeURIComponent_injective.
  - intros i i' E. unfold stats_url in E.
    do 4 apply append_cancel_l in E.
    apply encodeURIComponent_injective.
    apply (append_sep_cancel uri_safe "&" _ _ _ _
             (encodeURIComponent_safe _) (encodeURIComponent_safe _)
             eq_refl E).
Qed.

Lemma outbound_urls_tell_inputs_apart_witness :
  vanity_url dev_cfg "gabe" <> vanity_url dev_cfg "gabe/../x".
Proof.
  intros E.
  apply (proj1 (proj2 (outbound_urls_tell_inputs_apart dev_cfg))) in E.
  discriminate E.
Defined.

(* ================================================================== *)
(** ** Redaction of the credential in logged URLs *)
(* ================================================================== *)

Lemma includes_false_inv k c s :
  includes k (String c s) = false ->
  String.prefix k (String c s) = false /\ includes k s = false.
Proof.
  cbn [includes]. destruct (String.prefix k (String c s)); auto.
  discriminate.
Qed.

Lemma replace_first_absent pat rep : forall s,
  includes pat s = false -> replace_first pat rep s = s.
Proof.
  induction s as [|c s IH]; intros I.
  - cbn [includes] in I. cbn [replace_first].
    now destruct (String.prefix pat "").
  - apply includes_false_inv in I. destruct I as [P I].
    cbn [replace_first]. now rewrite P, IH.
Qed.

Lemma drop_app a : forall b, drop (String.length a) (a ++ b) = b.
Proof. induction a as [|c a IH]; simpl; auto. Qed.

Lemma replace_first_here pat rep b :
  replace_first pat rep (pat ++ b) = rep ++ b.
Proof.
  pose proof (prefix_app pat b) as P.
  destruct (pat ++ b) eqn:E; cbn [replace_first]; rewrite P, <- E;
    now rewrite drop_app.
Qed.

(** The first occurrence of a pattern made of [p]-characters, right after
    a character that is not one and a text that does not hold it. *)
Lemma replace_first_after_sep p pat rep c b :
  all_chars p pat = true -> pat <> "" -> p c = false ->
  forall a, includes pat a = false ->
  replace_first pat rep (a ++ String c (pat ++ b))
  = a ++ String c (rep ++ b).
Proof.
  intros A N C.
  assert (Pc : forall a, String.prefix pat a = false ->
                         String.prefix pat (a ++ String c (pat ++ b)) = false).
  { intros a F. destruct (String.prefix pat (a ++ _)) eqn:P; [|reflexivity].
    apply (prefix_before_sep p c _ a pat A C) in P. congruence. }
  induction a as [|y a IH]; intros I.
  - change ("" ++ String c (pat ++ b)) with (String c (pat ++ b)).
    cbn [replace_first].
    assert (P0 : String.prefix pat "" = false)
      by (destruct pat; [congruence | reflexivity]).
    apply Pc in P0.
    change ("" ++ String c (pat ++ b)) with (String c (pat ++ b)) in P0.
    rewrite P0. simpl. now rewrite replace_first_here.
  - apply includes_false_inv in I. destruct I as [P I].
    change (String y a ++ String c (pat ++ b))
      with (String y (a ++ String c (pat ++ b))).
    cbn [replace_first]. apply Pc in P.
    change (String y a ++ String c (pat ++ b))
      with (String y (a ++ String c (pat ++ b))) in P.
    rewrite P. simpl. now rewrite IH.
Qed.

Lemma hex_unreserved c : is_hex c = true -> uri_unreserved c = true.
Proof. destruct c as [[] [] [] [] [] [] [] []]; simpl; auto. Qed.

Lemma encodeURIComponent_unreserved s :
  all_chars uri_unreserved s = true -> encodeURIComponent s = s.
Proof.
  induction s as [|c s IH]; simpl; [reflexivity|].
  intros A. apply andb_true_iff in A. destruct A as [C A].
  now rewrite C, IH.
Qed.

Lemma not_included_by_run p k s :
  all_chars p k = true -> (max_run p s < String.length k)%nat ->
  includes k s = false.
Proof.
  intros A L. destruct (includes k s) eqn:I; [|reflexivity].
  pose proof (includes_max_run p k s A I). lia.
Qed.

(** X6: with a credential of five or more hexadecimal digits, the URL
    written to the log has the credential replaced: what is logged for a
    vanity call and for a stats call is the URL with [key=REDACTED] in
    place of the credential, the other parameters unchanged. *)
Theorem redactKey_hides_the_credential
  (cfg : config) (key vanity steamid64 : string) :
  STEAM_API_KEY cfg = Some key -> hex_key key ->
  (5 <= String.length key)%nat ->
  redactKey cfg (vanity_url cfg vanity)
  = "https://api.steampowered.com/ISteamUser/ResolveVanityURL/v0001/" ++
    "?key=REDACTED" ++ "&vanityurl=" ++ encodeURIComponent vanity
  /\ redactKey cfg (stats_url cfg steamid64)
     = "https://api.steampowered.com/ISteamUserStats/GetPlayerAchievements/v1/" ++
       "?key=REDACTED" ++
       "&steamid=" ++ encodeURIComponent steamid64 ++
       "&appid=1609230".
Proof.
  intros K [A _] L.
  assert (T : truthy (VStr key) = true).
  { simpl. destruct key; [simpl in L; lia | reflexivity]. }
  assert (N : key <> "") by (destruct key; [simpl in L; lia | discriminate]).
  assert (E : encodeURIComponent key = key).
  { apply encodeURIComponent_unreserved.
    apply (all_chars_weaken is_hex); [exact hex_unreserved | exact A]. }
  unfold redactKey, vanity_url, stats_url. rewrite K.
  cbn [env_value env_string]. rewrite T, E. split.
  - apply (replace_first_after_sep is_hex key "REDACTED" "=" _ A N eq_refl
             "https://api.steampowered.com/ISteamUser/ResolveVanityURL/v0001/?key").
    apply (not_included_by_run is_hex); [exact A|].
    change (max_run is_hex _) with 4%nat. lia.
  - apply (replace_first_after_sep is_hex key "REDACTED" "=" _ A N eq_refl
             "https://api.steampowered.com/ISteamUserStats/GetPlayerAchievements/v1/?key").
    apply (not_included_by_run is_hex); [exact A|].
    assert (M : (max_run is_hex
                   "https://api.steampowered.com/ISteamUserStats/GetPlayerAchievements/v1/?key"
                 <= 4)%nat) by (vm_compute; lia).
    lia.
Qed.

Lemma redactKey_hides_the_credential_witness :
  redactKey dev_cfg (vanity_url dev_cfg "gabe")
  = "https://api.steampowered.com/ISteamUser/ResolveVanityURL/v0001/" ++
    "?key=REDACTED" ++ "&vanityurl=" ++ encodeURIComponent "gabe"
  /\ redactKey dev_cfg (stats_url dev_cfg example_id)
     = "https://api.steampowered.com/ISteamUserStats/GetPlayerAchievements/v1/" ++
       "?key=REDACTED" ++
       "&steamid=" ++ encodeURIComponent example_id ++
       "&appid=1609230".
Proof.
  apply (redactKey_hides_the_credential dev_cfg example_key "gabe"
           example_id).
  - reflexivity.
  - split; [reflexivity | simpl; lia].
  - simpl. lia.
Defined.

Lemma prefix_count c : forall k s,
  String.prefix k s = true -> (count_char c k <= count_char c s)%nat.
Proof.
  induction k as [|x k IH]; intros [|y s] P; simpl in *;
    try lia; try discriminate.
  destruct (ascii_dec x y) as [<-|]; [|discriminate].
  specialize (IH s P). lia.
Qed.

Lemma includes_count c k : forall s,
  includes k s = true -> (count_char c k <= count_char c s)%nat.
Proof.
  induction s as [|d s IH]; intros I.
  - apply includes_empty in I. now subst.
  - apply includes_cons_inv in I. destruct I as [P|I].
    + now apply prefix_count.
    + specialize (IH I). simpl. lia.
Qed.

(** X7: the redaction looks for the credential as it is, while the URL
    holds it percent-encoded.  When the credential has a character that
    cannot occur in an encoded component, that is a character that the
    encoding escapes and that is not [%] itself, and that is none of
    [:/?=&], the credential as it is occurs nowhere in the URL, the
    redaction replaces nothing, and the URL is logged whole, with the
    encoded credential in it. *)
Theorem redactKey_misses_an_escaped_credential
  (cfg : config) (key : string) (c : ascii) (vanity steamid64 : string) :
  STEAM_API_KEY cfg = Some key ->
  (0 < count_char c key)%nat -> uri_safe c = false ->
  count_char c ":/?=&" = 0%nat ->
  redactKey cfg (vanity_url cfg vanity) = vanity_url cfg vanity
  /\ redactKey cfg (stats_url cfg steamid64) = stats_url cfg steamid64
  /\ includes (encodeURIComponent key) (vanity_url cfg vanity) = true
  /\ includes (encodeURIComponent key) (stats_url cfg steamid64) = true.
Proof.
  intros K Pos U Sep.
  set (p := fun d => uri_safe d || negb (Nat.eqb (count_char d ":/?=&") 0)).
  assert (Pc : p c = false) by (unfold p; now rewrite U, Sep).
  assert (Enc : forall s, all_chars p (encodeURIComponent s) = true).
  { intros s. apply (all_chars_weaken uri_safe); [|apply encodeURIComponent_safe].
    intros d D. unfold p. now rewrite D. }
  assert (Absent : forall url, all_chars p url = true ->
                               redactKey cfg url = url).
  { intros url A. unfold redactKey. rewrite K. cbn [env_value env_string].
    destruct (truthy (VStr key)); [|reflexivity].
    apply replace_first_absent.
    destruct (includes key url) eqn:I; [|reflexivity].
    apply (includes_count c) in I.
    rewrite (count_char_none p c url A Pc) in I. lia. }
  split; [|split; [|split]].
  - apply Absent. unfold vanity_url.
    rewrite !all_chars_app, !Enc. reflexivity.
  - apply Absent. unfold stats_url.
    rewrite !all_chars_app, !Enc. reflexivity.
  - unfold vanity_url. rewrite K. cbn [env_string].
    apply includes_later, includes_later, includes_here.
  - unfold stats_url. rewrite K. cbn [env_string].
    apply includes_later, includes_later, includes_here.
Qed.

Lemma redactKey_misses_an_escaped_credential_witness :
  let cfg := {| STEAM_API_KEY := Some "s3cret+key";
                TURNSTILE_SECRET_KEY := None;
                IS_PROD := false |} in
  redactKey cfg (vanity_url cfg "gabe") = vanity_url cfg "gabe"
  /\ redactKey cfg (stats_url cfg example_id) = stats_url cfg example_id
  /\ includes (encodeURIComponent "s3cret+key") (vanity_url cfg "gabe") = true
  /\ includes (encodeURIComponent "s3cret+key")
       (stats_url cfg example_id) = true.
Proof.
  apply (redactKey_misses_an_escaped_credential
           {| STEAM_API_KEY := Some "s3cret+key";
              TURNSTILE_SECRET_KEY := None;
              IS_PROD := false |}
           "s3cret+key" "+" "gabe" example_id);
    try reflexivity. simpl. lia.
Defined.

(* ================================================================== *)
(** ** What a request can lead to *)
(* ================================================================== *)

Lemma verify_calls cfg net token remoteip tr :
  snd (verifyTurnstileOrSkip cfg net token remoteip tr) = tr
  \/ snd (verifyTurnstileOrSkip cfg net token remoteip tr)
     = (tr ++ [turnstile_call cfg token remoteip])%list.
Proof.
  destruct (IS_PROD cfg) eqn:P; [|left; now rewrite verify_dev].
  destruct (configured (TURNSTILE_SECRET_KEY cfg)) eqn:S;
    [|left; now rewrite verify_no_secret].
  destruct (String.eqb_spec token "") as [->|N].
  - left. now rewrite verify_no_token.
  - right. rewrite verify_call by assumption. now destruct (net _).
Qed.

Lemma includes_refl s : includes s s = true.
Proof.
  apply includes_prefix. induction s as [|c s IH]; simpl; [reflexivity|].
  destruct (ascii_dec c c) as [_|N]; [exact IH | now destruct N].
Qed.

(** The three ways of the resolver: the profile cannot be converted, an
    id is read off the cleaned profile, or a part of the cleaned profile
    goes to vanity resolution. *)
Lemma resolveSteamId64_calls `{rt : Runtime} cfg net profile tr :
  (cleanProfileUrl profile = Throw type_error
   /\ resolveSteamId64 cfg net profile tr = (Throw type_error, tr))
  \/ (exists d, resolveSteamId64 cfg net profile tr = (Return (VStr d), tr)
                /\ steamid_digits d)
  \/ (exists p v, cleanProfileUrl profile = Return p
                  /\ resolveSteamId64 cfg net profile tr
                     = resolveVanity cfg net v tr
                  /\ includes v p = true).
Proof.
  destruct (trimmed_cases profile) as [(s & _ & T) | (_ & T)].
  2:{ left. split; [exact T|]. now apply resolveSteamId64_throws. }
  right.
  rewrite (resolveSteamId64_cleaned cfg net profile (trim s) tr T).
  set (p := trim s) in *.
  destruct (re_steamid64 p) eqn:R.
  - left. exists p. split; [reflexivity | now apply re_steamid64_spec].
  - destruct (re_profiles p) as [d|] eqn:E.
    + left. exists d. split; [reflexivity|].
      destruct (re_profiles_sound _ _ E) as (pre & (m & rest & _ & _ & D) & _).
      exact D.
    + right. exists p. destruct (re_vanity p) as [tok|] eqn:V.
      * exists tok. split; [exact T|]. split; [reflexivity|].
        destruct (re_vanity_sound _ _ V) as (pre & m & rest & -> & _).
        apply includes_later, includes_later, includes_here.
      * exists p. split; [exact T|]. split; [reflexivity | apply includes_refl].
Qed.

Lemma getPlayerAchievements_calls `{rt : Runtime} cfg net steamid64 tr :
  exists gets,
    snd (getPlayerAchievements cfg net steamid64 tr) = (tr ++ gets)%list
    /\ (List.length gets <= 1)%nat
    /\ forall u b, ~ In (POST_form u b) gets.
Proof.
  destruct (ToString steamid64) as [id|] eqn:Id.
  - rewrite (getPlayerAchievements_run cfg net steamid64 id tr Id).
    exists [GET (stats_url cfg id)]. split; [now destruct (net _)|].
    split; [simpl; lia|]. intros u b [F|[]]. discriminate F.
  - rewrite getPlayerAchievements_throws by assumption.
    exists []. simpl. rewrite app_nil_r. split; [reflexivity|].
    split; [lia|]. intros u b [].
Qed.

Lemma handleSync_calls `{rt : Runtime} cfg net profile client tr :
  exists gets,
    snd (handleSync cfg net profile client tr) = (tr ++ gets)%list
    /\ (List.length gets <= 2)%nat
    /\ forall u b, ~ In (POST_form u b) gets.
Proof.
  rewrite handleSync_run.
  assert (G : forall id tr1,
             exists gets,
               snd (match getPlayerAchievements cfg net id tr1 with
                    | (Throw e, tr2) => (Throw e, tr2)
                    | (Return achievements, tr2) =>
                        if forallb flag_converts achievements
                        then (Return (sync_result id
                                        (unlocked_keys client achievements)),
                              tr2)
                        else (Throw type_error, tr2)
                    end) = (tr1 ++ gets)%list
               /\ (List.length gets <= 1)%nat
               /\ forall u b, ~ In (POST_form u b) gets).
  { intros id tr1.
    destruct (getPlayerAchievements_calls cfg net id tr1) as (gets & C & L & N).
    exists gets. split; [|now split].
    destruct (getPlayerAchievements cfg net id tr1) as [[l|e] tr2];
      [|exact C].
    now destruct (forallb flag_converts l). }
  destruct (resolveSteamId64_calls cfg net profile tr)
    as [(_ & ->) | [(d & -> & _) | (p & v & _ & -> & _)]].
  - exists []. simpl. rewrite app_nil_r. split; [reflexivity|].
    split; [lia|]. intros u b [].
  - destruct (G (VStr d) tr) as (gets & C & L & N).
    exists gets. split; [exact C|]. split; [lia | exact N].
  - pose proof (resolveVanity_trace cfg net v tr) as T.
    destruct (resolveVanity cfg net v tr) as [[id|e] tr1]; simpl in T; subst tr1.
    + destruct (G id (tr ++ [GET (vanity_url cfg v)])%list)
        as (gets & C & L & N).
      rewrite C, <- app_assoc.
      exists (GET (vanity_url cfg v) :: gets).
      split; [reflexivity|]. split; [simpl; lia|].
      intros u b [F|F]; [discriminate F | now apply (N u b)].
    + exists [GET (vanity_url cfg v)].
      split; [reflexivity|]. split; [simpl; lia|].
      intros u b [F|[]]. discriminate F.
Qed.

Lemma verify_before cfg net token remoteip tr :
  exists before,
    snd (verifyTurnstileOrSkip cfg net token remoteip tr)
    = (tr ++ before)%list
    /\ (List.length before <= 1)%nat
    /\ (IS_PROD cfg = false -> before = []).
Proof.
  destruct (IS_PROD cfg) eqn:P.
  - destruct (verify_calls cfg net token remoteip tr) as [E|E].
    + exists []. rewrite app_nil_r. repeat split; auto.
    + exists [turnstile_call cfg token remoteip].
      repeat split; auto; discriminate.
  - exists []. rewrite verify_dev, app_nil_r by assumption. auto.
Qed.

Lemma tl_without_post (before gets : list request) :
  (List.length before <= 1)%nat ->
  (forall u b, ~ In (POST_form u b) gets) ->
  forall u b, ~ In (POST_form u b) (List.tl (before ++ gets)).
Proof.
  intros L G u b I. destruct before as [|c [|c' before]]; simpl in *.
  - apply (G u b). destruct gets; [destruct I | now right].
  - now apply (G u b).
  - lia.
Qed.

(** X8: the endpoint never throws.  Every POST is answered with status
    200, 400 or 500, after at most three outbound calls (at most two
    outside production), and the call to the challenge service, when there
    is one, is the first of them. *)
Theorem post_steam_sync_always_answers `{rt : Runtime}
  (cfg : config) (net : network) (req : http_request) (tr : list request) :
  exists r calls,
    post_steam_sync cfg net req tr = (Return r, (tr ++ calls)%list)
    /\ (res_status r = 200 \/ res_status r = 400 \/ res_status r = 500)
    /\ (List.length calls <= 3)%nat
    /\ (IS_PROD cfg = false -> (List.length calls <= 2)%nat)
    /\ (forall u b, ~ In (POST_form u b) (List.tl calls)).
Proof.
  destruct (request_cases req)
    as [Hp | [Hp | [(p & Hp & N & Ht) | (p & t & Hp & N & Ht)]]].
  { exists (server_error type_error), [].
    rewrite (post_profile_throws cfg net req type_error) by assumption.
    rewrite app_nil_r. simpl. repeat split; auto; lia. }
  { exists missing_profile, []. rewrite post_missing_profile by assumption.
    rewrite app_nil_r. simpl. repeat split; auto; lia. }
  { exists (server_error type_error), [].
    rewrite (post_token_throws cfg net req p type_error) by assumption.
    rewrite app_nil_r. simpl. repeat split; auto; lia. }
  rewrite (post_steam_sync_run cfg net req p t) by assumption.
  destruct (verify_before cfg net t (req_ip req) tr)
    as (before & V & L1 & D1).
  assert (B0 : forall u b, ~ In (POST_form u b) (List.tl (before ++ []))).
  { apply tl_without_post; auto. }
  rewrite app_nil_r in B0.
  destruct (verifyTurnstileOrSkip cfg net t (req_ip req) tr)
    as [[ts|e] tr1]; simpl in V; subst tr1.
  - destruct (negb (truthy (get ts "success"))).
    + eexists _, before. split; [reflexivity|]. simpl.
      split; [auto|]. split; [lia|]. split; [|exact B0].
      intros P. rewrite (D1 P). simpl. lia.
    + destruct (handleSync_calls cfg net (VStr p)
                  (client_of req) (tr ++ before)%list)
        as (gets & S & L2 & G).
      assert (Len : (List.length (before ++ gets) <= 3)%nat)
        by (rewrite length_app; lia).
      assert (Dev : IS_PROD cfg = false ->
                    (List.length (before ++ gets) <= 2)%nat)
        by (intros P; rewrite (D1 P); simpl; lia).
      pose proof (tl_without_post before gets L1 G) as T.
      destruct (handleSync cfg net (VStr p) (client_of req)
                  (tr ++ before)%list) as [[out|e] tr2];
        simpl in S; subst tr2; rewrite <- app_assoc;
        eexists _, (before ++ gets)%list; (split; [reflexivity|]); simpl;
        auto.
  - exists (server_error e), before. split; [reflexivity|]. simpl.
    split; [auto|]. split; [lia|]. split; [|exact B0].
    intros P. rewrite (D1 P). simpl. lia.
Qed.

Lemma unlocked_keys_in `{rt : Runtime} client achievements k :
  In k (unlocked_keys client achievements) ->
  truthy k = true
  /\ (exists e, In e client /\ usable e = true /\ key_of e = k)
  /\ (exists a, In a achievements /\ achieved a = Some true
                /\ lookup client (apiname_of a) = Some k).
Proof.
  unfold unlocked_keys. intros I. apply in_flat_map in I.
  destruct I as (a & Ia & I). unfold is_achieved in I.
  destruct (achieved a) as [[|]|] eqn:A; try destruct I.
  destruct (lookup client (apiname_of a)) as [k'|] eqn:L; [|destruct I].
  destruct I as [<-|[]].
  split; [now apply (lookup_truthy client (apiname_of a))|]. split.
  - unfold lookup, last_entry_for in L.
    destruct (find _ _) as [e|] eqn:F; [|discriminate L].
    injection L as <-. apply find_some in F. destruct F as [In' _].
    apply in_rev, filter_In in In'. destruct In' as [In' U].
    now exists e.
  - now exists a.
Qed.

(** X9: in every 200 answer the body is the triple of handleSync, count is
    the length of unlocked, and every element of unlocked is a non-empty
    (truthy) key taken from an entry of the manifest sent in the request
    whose api-name and key are both non-empty: the service never answers
    with a key the client did not send. *)
Theorem ok_answer_holds_manifest_keys `{rt : Runtime}
  (cfg : config) (net : network) (req : http_request)
  (tr tr' : list request) (r : http_response) :
  post_steam_sync cfg net req tr = (Return r, tr') ->
  res_status r = 200 ->
  exists steamid64 unlocked,
    res_json r
    = VObj [("steamid64", steamid64);
            ("unlocked", VArr unlocked);
            ("count", VNum (Int (Z.of_nat (List.length unlocked))))]
    /\ forall k, In k unlocked ->
         truthy k = true
         /\ exists e, In e (client_of req) /\ usable e = true
                      /\ key_of e = k.
Proof.
  intros E S.
  destruct (request_cases req)
    as [Hp | [Hp | [(p & Hp & N & Ht) | (p & t & Hp & N & Ht)]]].
  { rewrite (post_profile_throws cfg net req type_error) in E by assumption.
    injection E as <- _. discriminate S. }
  { rewrite post_missing_profile in E by assumption.
    injection E as <- _. discriminate S. }
  { rewrite (post_token_throws cfg net req p type_error) in E by assumption.
    injection E as <- _. discriminate S. }
  rewrite (post_steam_sync_run cfg net req p t) in E by assumption.
  destruct (verifyTurnstileOrSkip _ _ _ _ _) as [[ts|e] tr1];
    [|injection E as <- _; discriminate S].
  destruct (negb (truthy (get ts "success")));
    [injection E as <- _; discriminate S|].
  rewrite handleSync_run in E.
  destruct (resolveSteamId64 _ _ _ _) as [[id|e] tr2];
    [|injection E as <- _; discriminate S].
  destruct (getPlayerAchievements _ _ _ _) as [[l|e] tr3];
    [|injection E as <- _; discriminate S].
  destruct (forallb flag_converts l);
    [|injection E as <- _; discriminate S].
  injection E as <- _. simpl.
  exists id, (unlocked_keys (client_of req) l). split; [reflexivity|].
  intros k I. destruct (unlocked_keys_in _ _ _ I) as (T & Ex & _). auto.
Qed.

Lemma ok_answer_holds_manifest_keys_witness :
  exists steamid64 unlocked,
    VObj [("steamid64", VStr example_id);
          ("unlocked", VArr [VStr "k1"]);
          ("count", VNum (Int 1))]
    = VObj [("steamid64", steamid64);
            ("unlocked", VArr unlocked);
            ("count", VNum (Int (Z.of_nat (List.length unlocked))))]
    /\ forall k, In k unlocked ->
         truthy k = true
         /\ exists e, In e (client_of example_post) /\ usable e = true
                      /\ key_of e = k.
Proof.
  apply (ok_answer_holds_manifest_keys (rt := example_runtime) dev_cfg
           (always (stats_body [achievement "A" 1; achievement "Z" 1]))
           example_post []
           [GET (stats_url dev_cfg example_id)]
           {| res_status := 200;
              res_json := VObj [("steamid64", VStr example_id);
                                ("unlocked", VArr [VStr "k1"]);
                                ("count", VNum (Int 1))] |});
    reflexivity.
Defined.

(** X10: the second loop of handleSync works record by record.  It throws
    a TypeError exactly when the flag of some record cannot be converted
    to a number, whatever the other records are.  Otherwise the list
    collected over two lists put end to end is the two collected lists put
    end to end; it never collects more keys than there are records; and a
    record that is not an object ([null], a number, a string), that has no
    flag, whose flag converts to a number other than 1, or whose flag
    converts and whose api-name has no key in the map, adds nothing,
    wherever it stands. *)
Theorem collect_unlocked_record_by_record `{rt : Runtime}
  (apiToKey : Map) (l1 l2 : list value) (a : value) :
  collect_unlocked apiToKey (l1 ++ l2) []
  = match collect_unlocked apiToKey l1 [],
          collect_unlocked apiToKey l2 [] with
    | Return u1, Return u2 => Return (u1 ++ u2)%list
    | _, _ => Throw type_error
    end
  /\ (collect_unlocked apiToKey l1 [] = Throw type_error
      <-> exists x, In x l1 /\ achieved x = None)
  /\ (forall u, collect_unlocked apiToKey l1 [] = Return u ->
                (List.length u <= List.length l1)%nat
                /\ forall x, In x l1 -> achieved x <> None)
  /\ ((get a "achieved" = VUndefined
       \/ achieved a = Some false
       \/ (achieved a <> None
           /\ truthy (Map_get apiToKey (get a "apiname")) = false)) ->
      collect_unlocked apiToKey (l1 ++ a :: l2) []
      = collect_unlocked apiToKey (l1 ++ l2) [])
  /\ ((forall fields, a <> VObj fields) ->
      collect_unlocked apiToKey (l1 ++ a :: l2) []
      = collect_unlocked apiToKey (l1 ++ l2) [])
  /\ (achieved a = None ->
      collect_unlocked apiToKey (l1 ++ a :: l2) [] = Throw type_error).
Proof.
  rewrite !collect_unlocked_flat. cbn [List.app].
  set (f := fun a =>
              if is_achieved a && truthy (Map_get apiToKey (get a "apiname"))
              then [Map_get apiToKey (get a "apiname")] else []).
  assert (All : forall l, forallb flag_converts l = false
                          <-> exists x, In x l /\ achieved x = None).
  { intros l. induction l as [|x l IH]; simpl.
    - split; [discriminate | intros (x & [] & _)].
    - unfold flag_converts at 1.
      destruct (achieved x) as [b|] eqn:A; simpl.
      + rewrite IH. split.
        * intros (y & I & N). exists y. auto.
        * intros (y & [<-|I] & N); [congruence | now exists y]. 
      + split; [|reflexivity]. intros _. exists x. auto. }
  assert (Skip : achieved a = Some false
                 \/ (achieved a <> None
                     /\ truthy (Map_get apiToKey (get a "apiname")) = false) ->
                 (if forallb flag_converts (l1 ++ a :: l2)
                  then Return (flat_map f (l1 ++ a :: l2))
                  else Throw type_error)
                 = (if forallb flag_converts (l1 ++ l2)
                    then Return (flat_map f (l1 ++ l2))
                    else Throw type_error)).
  { intros H. rewrite !forallb_app, !flat_map_app. cbn [forallb flat_map].
    assert (C : flag_converts a = true).
    { unfold flag_converts. destruct H as [H | [H _]]; [now rewrite H|].
      now destruct (achieved a). }
    assert (F : f a = []).
    { unfold f, is_achieved. destruct H as [H | [_ H]]; [now rewrite H|].
      rewrite H. now rewrite andb_false_r. }
    now rewrite C, F. }
  assert (Undef : get a "achieved" = VUndefined -> achieved a = Some false).
  { intros U. unfold achieved. now rewrite U. }
  split; [|split; [|split; [|split; [|split]]]].
  - rewrite forallb_app, flat_map_app.
    destruct (forallb flag_converts l1); [|reflexivity].
    now destruct (forallb flag_converts l2).
  - rewrite <- All. destruct (forallb flag_converts l1); split;
      try reflexivity; discriminate.
  - intros u E. destruct (forallb flag_converts l1) eqn:C; [|discriminate E].
    injection E as <-. split.
    + clear. induction l1 as [|x l1 IH]; [simpl; lia|].
      cbn [flat_map]. rewrite length_app. unfold f at 1.
      destruct (is_achieved x && truthy (Map_get apiToKey (get x "apiname")));
        simpl; lia.
    + intros x I N.
      assert (X : forallb flag_converts l1 = false)
        by (apply All; now exists x).
      congruence.
  - intros [U|H]; [|exact (Skip H)].
    apply Skip. left. now apply Undef.
  - intros NO. apply Skip. left. apply Undef.
    destruct a; try reflexivity. now destruct (NO fields).
  - intros N. rewrite forallb_app. cbn [forallb].
    unfold flag_converts at 2. rewrite N.
    now rewrite andb_false_r.
Qed.

Lemma collect_unlocked_record_by_record_witness :
  collect_unlocked (rt := example_runtime) (build_apiToKey [entry "A" "k1"])
    ([achievement "A" 1] ++ VNull :: [achievement "A" 1]) []
  = collect_unlocked (rt := example_runtime) (build_apiToKey [entry "A" "k1"])
      ([achievement "A" 1] ++ [achievement "A" 1]) []
  /\ collect_unlocked (rt := example_runtime)
       (build_apiToKey [entry "A" "k1"])
       ([achievement "A" 1]
          ++ VObj [("apiname", VStr "A");
                   ("achieved", VObj [("toString", VNum (Int 1))])]
          :: [achievement "A" 1]) []
     = Throw type_error.
Proof.
  pose proof (collect_unlocked_record_by_record (rt := example_runtime)
                (build_apiToKey [entry "A" "k1"])
                [achievement "A" 1] [achievement "A" 1]) as H.
  split.
  - apply (H VNull). discriminate.
  - apply (H (VObj [("apiname", VStr "A");
                    ("achieved", VObj [("toString", VNum (Int 1))])])).
    reflexivity.
Defined.

(* ================================================================== *)
(** ** The verifier, the resolver and the start-up, in detail *)
(* ================================================================== *)

(** X11: the verifier never looks at the HTTP status of the challenge
    service: two answers with the same parsed body give the same verdict,
    and an answer whose body has a truthy success flag is accepted whatever
    its status is. *)
Theorem verifyTurnstileOrSkip_ignores_status
  (cfg : config) (net net' : network) (token : string)
  (remoteip : option string) (tr : list request) (resp resp' : response) :
  IS_PROD cfg = true -> configured (TURNSTILE_SECRET_KEY cfg) = true ->
  token <> "" ->
  net (turnstile_call cfg token remoteip) = Resolved resp ->
  net' (turnstile_call cfg token remoteip) = Resolved resp' ->
  parsed resp = parsed resp' ->
  verifyTurnstileOrSkip cfg net token remoteip tr
  = verifyTurnstileOrSkip cfg net' token remoteip tr
  /\ (truthy (get (data_of resp) "success") = true ->
      fst (verifyTurnstileOrSkip cfg net token remoteip tr)
      = Return (VObj [("success", VBool true)])).
Proof.
  intros P S N R R' E. rewrite !verify_call by assumption.
  rewrite R, R'. unfold data_of. rewrite E. split; [reflexivity|].
  intros T. cbn [fst]. now rewrite T.
Qed.

Lemma verifyTurnstileOrSkip_ignores_status_witness :
  verifyTurnstileOrSkip prod_cfg
    (fun _ => json 200 (VObj [("success", VBool true)])) "tok" None []
  = verifyTurnstileOrSkip prod_cfg
      (fun _ => json 503 (VObj [("success", VBool true)])) "tok" None []
  /\ (truthy (get (data_of {| status := 200;
                              parsed := Some (VObj [("success", VBool true)]) |})
                  "success") = true ->
      fst (verifyTurnstileOrSkip prod_cfg
             (fun _ => json 200 (VObj [("success", VBool true)]))
             "tok" None [])
      = Return (VObj [("success", VBool true)])).
Proof.
  apply (verifyTurnstileOrSkip_ignores_status prod_cfg
           (fun _ => json 200 (VObj [("success", VBool true)]))
           (fun _ => json 503 (VObj [("success", VBool true)]))
           "tok" None []
           {| status := 200;
              parsed := Some (VObj [("success", VBool true)]) |}
           {| status := 503;
              parsed := Some (VObj [("success", VBool true)]) |});
    try reflexivity. discriminate.
Defined.

Lemma is_not_one_false v : is_not_one v = false <-> v = VNum (Int 1).
Proof.
  split; [|now intros ->].
  destruct v as [| | |[|z|r]| | |]; simpl; try discriminate.
  rewrite negb_false_iff. intros E. apply Z.eqb_eq in E. now subst.
Qed.

(** X12: vanity resolution returns an id exactly when the call resolves
    with a success status and a body whose [response.success] is the number
    1 and whose [response.steamid] is truthy; the id returned is that
    [steamid] as it came, whatever its form. *)
Theorem resolveVanity_returns_iff `{rt : Runtime}
  (cfg : config) (net : network) (vanity : string) (tr : list request)
  (id : value) :
  fst (resolveVanity cfg net vanity tr) = Return id
  <-> exists res,
        net (GET (vanity_url cfg vanity)) = Resolved res
        /\ ok res = true
        /\ get (get (data_of res) "response") "success" = VNum (Int 1)
        /\ get (get (data_of res) "response") "steamid" = id
        /\ truthy id = true.
Proof.
  rewrite resolveVanity_run. split.
  - destruct (net _) as [e|res]; [discriminate|]. cbv zeta. cbn [fst].
    destruct (ok res) eqn:O; [|discriminate]. simpl negb. cbv iota.
    destruct (is_not_one _) eqn:One; [discriminate|].
    destruct (truthy _) eqn:T; [|discriminate]. simpl.
    intros [= <-]. exists res. apply is_not_one_false in One.
    repeat split; auto.
  - intros (res & -> & O & S & <- & T). cbv zeta. cbn [fst].
    now rewrite O, S, T.
Qed.


(** X14: a process that listens holds a non-empty API credential, and it
    is in production mode exactly when NODE_ENV is the string "production",
    letter for letter.  With any other value (unset, "Production", "prod")
    the verifier accepts every token without a call. *)
Theorem start_listening_invariant
  (e : environment) (cfg : config) :
  start e = Listening cfg ->
  cfg = load e
  /\ (exists key, STEAM_API_KEY cfg = Some key /\ key <> "")
  /\ (IS_PROD cfg = true <-> env_NODE_ENV e = Some "production")
  /\ (env_NODE_ENV e <> Some "production" ->
      forall net token remoteip tr,
        verifyTurnstileOrSkip cfg net token remoteip tr
        = (Return (VObj [("success", VBool true); ("skipped", VBool true)]),
           tr)).
Proof.
  unfold start. intros S.
  destruct (truthy (env_value (STEAM_API_KEY (load e)))) eqn:K;
    [|discriminate S].
  injection S as <-.
  assert (Prod : IS_PROD (load e) = true
                 <-> env_NODE_ENV e = Some "production").
  { simpl. destruct (env_NODE_ENV e) as [s|].
    - rewrite String.eqb_eq. split; [now intros -> | now intros [= ->]].
    - split; discriminate. }
  split; [reflexivity|]. split; [|split; [exact Prod|]].
  - simpl in *. destruct (env_STEAM_API_KEY e) as [k|]; [|discriminate K].
    exists k. split; [reflexivity|]. intros ->. discriminate K.
  - intros N net token remoteip tr. apply verify_dev.
    destruct (IS_PROD (load e)) eqn:P; [|reflexivity].
    destruct N. now apply Prod.
Qed.

Lemma start_listening_invariant_witness :
  verifyTurnstileOrSkip
    (load {| env_STEAM_API_KEY := Some example_key;
             env_TURNSTILE_SECRET_KEY := Some "turnstile-secret";
             env_NODE_ENV := Some "Production" |})
    unreachable "" None []
  = (Return (VObj [("success", VBool true); ("skipped", VBool true)]), []).
Proof.
  apply (start_listening_invariant
           {| env_STEAM_API_KEY := Some example_key;
              env_TURNSTILE_SECRET_KEY := Some "turnstile-secret";
              env_NODE_ENV := Some "Production" |}
           (load {| env_STEAM_API_KEY := Some example_key;
                    env_TURNSTILE_SECRET_KEY := Some "turnstile-secret";
                    env_NODE_ENV := Some "Production" |})
           eq_refl).
  discriminate.
Defined.

(* ================================================================== *)

(* ================================================================== *)
(** ** The manifest and the fields of the request *)
(* ================================================================== *)

Lemma lookup_some client name k :
  lookup client name = Some k ->
  exists e, In e client /\ usable e = true
            /\ SameValueZero (apiname_of e) name = true /\ key_of e = k.
Proof.
  unfold lookup, last_entry_for. intros L.
  destruct (find _ _) as [e|] eqn:F; [|discriminate L].
  injection L as <-. apply find_some in F. destruct F as [I S].
  apply in_rev, filter_In in I. destruct I as [I U]. now exists e.
Qed.

Lemma lookup_none client name e :
  lookup client name = None -> In e client -> usable e = true ->
  SameValueZero (apiname_of e) name = false.
Proof.
  unfold lookup, last_entry_for. intros L I U.
  destruct (find _ _) as [x|] eqn:F; [discriminate L|].
  apply (find_none _ _ F). apply -> in_rev. apply filter_In. auto.
Qed.

(** X15: the order of the manifest does not matter as long as its usable
    entries agree: when any two usable entries with the same api-name carry
    the same key (in particular when api-names are not repeated), a
    reordered manifest gives the same lookups, the same unlocked list and
    the same outcome of handleSync. *)
Theorem manifest_order_is_irrelevant `{rt : Runtime}
  (c c' : list value) :
  Permutation c c' ->
  (forall e1 e2,
     In e1 c -> In e2 c -> usable e1 = true -> usable e2 = true ->
     SameValueZero (apiname_of e1) (apiname_of e2) = true ->
     key_of e1 = key_of e2) ->
  (forall name,
     Map_get (build_apiToKey c) name = Map_get (build_apiToKey c') name)
  /\ (forall l u,
        collect_unlocked (build_apiToKey c) l u
        = collect_unlocked (build_apiToKey c') l u)
  /\ (forall cfg net profile tr,
        handleSync cfg net profile c tr = handleSync cfg net profile c' tr).
Proof.
  intros P Agree.
  assert (G : forall name,
             Map_get (build_apiToKey c) name
             = Map_get (build_apiToKey c') name).
  { intros name. rewrite !Map_get_build. unfold lookup_value.
    destruct (lookup c name) as [k|] eqn:L;
      destruct (lookup c' name) as [k'|] eqn:L'; try reflexivity.
    - destruct (lookup_some _ _ _ L) as (e & I & U & S & <-).
      destruct (lookup_some _ _ _ L') as (e' & I' & U' & S' & <-).
      apply (Permutation_in _ (Permutation_sym P)) in I'.
      apply Agree; auto.
      pose proof (SameValueZero_eq _ _ S') as E'. now rewrite E'.
    - destruct (lookup_some _ _ _ L) as (e & I & U & S & <-).
      apply (Permutation_in _ P) in I.
      rewrite (lookup_none _ _ _ L' I U) in S. discriminate S.
    - destruct (lookup_some _ _ _ L') as (e' & I' & U' & S' & <-).
      apply (Permutation_in _ (Permutation_sym P)) in I'.
      rewrite (lookup_none _ _ _ L I' U') in S'. discriminate S'. }
  assert (C : forall l u,
             collect_unlocked (build_apiToKey c) l u
             = collect_unlocked (build_apiToKey c') l u).
  { intros l u. rewrite !collect_unlocked_flat.
    destruct (forallb flag_converts l); [|reflexivity].
    do 2 f_equal. apply flat_map_ext. intros a. now rewrite G. }
  split; [exact G|]. split; [exact C|].
  intros cfg net profile tr. unfold handleSync, bind.
  destruct (resolveSteamId64 cfg net profile tr) as [[id|e] tr1];
    [|reflexivity].
  destruct (getPlayerAchievements cfg net id tr1) as [[l|e] tr2];
    [|reflexivity].
  now rewrite C.
Qed.

Lemma manifest_order_is_irrelevant_witness :
  (forall name,
     Map_get (build_apiToKey [entry "A" "k1"; entry "C" "k3"]) name
     = Map_get (build_apiToKey [entry "C" "k3"; entry "A" "k1"]) name)
  /\ (forall l u,
        collect_unlocked (rt := example_runtime)
          (build_apiToKey [entry "A" "k1"; entry "C" "k3"]) l u
        = collect_unlocked (rt := example_runtime)
            (build_apiToKey [entry "C" "k3"; entry "A" "k1"]) l u)
  /\ (forall cfg net profile tr,
        handleSync (rt := example_runtime) cfg net profile
          [entry "A" "k1"; entry "C" "k3"] tr
        = handleSync (rt := example_runtime) cfg net profile
            [entry "C" "k3"; entry "A" "k1"] tr).
Proof.
  apply (manifest_order_is_irrelevant (rt := example_runtime)
           [entry "A" "k1"; entry "C" "k3"]
           [entry "C" "k3"; entry "A" "k1"]).
  - apply perm_swap.
  - intros e1 e2 [<-|[<-|[]]] [<-|[<-|[]]] _ _ S;
      try reflexivity; discriminate S.
Defined.

Lemma unlocked_keys_no_manifest `{rt : Runtime} l : unlocked_keys [] l = [].
Proof.
  unfold unlocked_keys. induction l as [|a l IH]; [reflexivity|].
  cbn [flat_map]. rewrite IH. now destruct (is_achieved a).
Qed.

(** X16: when the client field of the request is absent or is not an array,
    the manifest is taken to be empty: a 200 answer then has an empty
    unlocked list and count 0, whatever the player has achieved. *)
Theorem non_array_client_unlocks_nothing `{rt : Runtime}
  (cfg : config) (net : network) (req : http_request)
  (tr tr' : list request) (r : http_response) :
  isArray (get (req_body req) "client") = false ->
  post_steam_sync cfg net req tr = (Return r, tr') ->
  res_status r = 200 ->
  exists steamid64,
    res_json r = VObj [("steamid64", steamid64);
                       ("unlocked", VArr []);
                       ("count", VNum (Int 0))].
Proof.
  intros A E S.
  assert (C : client_of req = []) by (unfold client_of; now rewrite A).
  destruct (request_cases req)
    as [Hp | [Hp | [(p & Hp & N & Ht) | (p & t & Hp & N & Ht)]]].
  { rewrite (post_profile_throws cfg net req type_error) in E by assumption.
    injection E as <- _. discriminate S. }
  { rewrite post_missing_profile in E by assumption.
    injection E as <- _. discriminate S. }
  { rewrite (post_token_throws cfg net req p type_error) in E by assumption.
    injection E as <- _. discriminate S. }
  rewrite (post_steam_sync_run cfg net req p t) in E by assumption.
  destruct (verifyTurnstileOrSkip _ _ _ _ _) as [[ts|e] tr1];
    [|injection E as <- _; discriminate S].
  destruct (negb (truthy (get ts "success")));
    [injection E as <- _; discriminate S|].
  rewrite handleSync_run, C in E.
  destruct (resolveSteamId64 _ _ _ _) as [[id|e] tr2];
    [|injection E as <- _; discriminate S].
  destruct (getPlayerAchievements _ _ _ _) as [[l|e] tr3];
    [|injection E as <- _; discriminate S].
  destruct (forallb flag_converts l);
    [|injection E as <- _; discriminate S].
  injection E as <- _. exists id. simpl.
  now rewrite unlocked_keys_no_manifest.
Qed.

Lemma non_array_client_unlocks_nothing_witness :
  exists steamid64,
    VObj [("steamid64", VStr example_id);
          ("unlocked", VArr []);
          ("count", VNum (Int 0))]
    = VObj [("steamid64", steamid64);
            ("unlocked", VArr []);
            ("count", VNum (Int 0))].
Proof.
  apply (non_array_client_unlocks_nothing (rt := example_runtime) dev_cfg
           (always (stats_body [achievement "A" 1]))
           {| req_body := VObj [("profile", VStr example_id);
                                ("client", entry "A" "k1")];
              req_ip := None |}
           [] [GET (stats_url dev_cfg example_id)]
           {| res_status := 200;
              res_json := VObj [("steamid64", VStr example_id);
                                ("unlocked", VArr []);
                                ("count", VNum (Int 0))] |});
    reflexivity.
Defined.

(** X17: in production mode with the secret configured, a POST whose
    profile is read as a non-empty string but whose token is absent, falsy
    or a string of white space only is answered 400 with the error
    "Missing turnstileToken" and no details, before any outbound call. *)
Theorem missing_token_is_rejected_before_any_call `{rt : Runtime}
  (cfg : config) (net : network) (req : http_request) (tr : list request)
  (profile : string) :
  IS_PROD cfg = true -> configured (TURNSTILE_SECRET_KEY cfg) = true ->
  profile_of req = Return profile -> profile <> "" ->
  (truthy (get (req_body req) "turnstileToken") = false
   \/ exists s, get (req_body req) "turnstileToken" = VStr s
                /\ all_chars is_ws s = true) ->
  post_steam_sync cfg net req tr
  = (Return {| res_status := 400;
               res_json := VObj [("error", VStr "Missing turnstileToken");
                                 ("details", VUndefined)] |}, tr).
Proof.
  intros P S Hp N T.
  assert (E : token_of req = Return "").
  { unfold token_of. destruct T as [F | (s & -> & W)].
    - unfold trimmed, or_else. now rewrite F.
    - rewrite trimmed_string. apply trim_empty_iff in W. now rewrite W. }
  rewrite (post_steam_sync_run cfg net req profile "") by assumption.
  now rewrite verify_no_token.
Qed.

Lemma missing_token_is_rejected_before_any_call_witness :
  post_steam_sync (rt := example_runtime) prod_cfg unreachable
    {| req_body := VObj [("profile", VStr example_id);
                         ("turnstileToken", VStr "  ")];
       req_ip := None |} []
  = (Return {| res_status := 400;
               res_json := VObj [("error", VStr "Missing turnstileToken");
                                 ("details", VUndefined)] |}, []).
Proof.
  apply (missing_token_is_rejected_before_any_call (rt := example_runtime)
           prod_cfg unreachable
           {| req_body := VObj [("profile", VStr example_id);
                                ("turnstileToken", VStr "  ")];
              req_ip := None |} [] example_id);
    try reflexivity.
  - discriminate.
  - right. exists "  ". split; reflexivity.
Defined.




